(** * gobfy: a Brainfuck interpreter in Go

    A shallow embedding of the interpreter's [Processor] (the tape, the
    closure stack and the dispatch loop of [Execute]) and the properties
    of its specification, proved over that embedding.

    Conventions of the model.
    - Go's [int] (the data pointer, the instruction pointer, [len]) is [Z].
      Both pointers index a slice or sit one past its end, and a Go slice
      is bounded by the address space, so no [int] operation of the
      program reaches the 64-bit boundary.
    - A tape cell (Go [byte]) is a [Z] in [0, 256); [++] and [--] on a
      cell are written with their wrap-around, [mod 256].
    - The program text and the input stream are [list byte].
    - An index expression [s[i]] outside [0 <= i < len s] is a Go run-time
      panic; [log.Fatal] ends the process.  Both are results of the
      handlers here, [Abort e p], with [p] the state at that moment.
    - [os.Stdout] (written by [fmt.Printf]) and the [log] stream (written
      by the debug trace) are kept next to the processor's own fields. *)

From Stdlib Require Import ZArith List Bool Lia.
From Stdlib.Strings Require Import Byte String.
From stdpp Require Import base list.
Import ListNotations.
Local Open Scope Z_scope.

(** ** Constants *)

Definition InstMoveRight : byte := ">"%byte.
Definition InstMoveLeft : byte := "<"%byte.
Definition InstIncrement : byte := "+"%byte.
Definition InstDecrement : byte := "-"%byte.
Definition InstOutput : byte := "."%byte.
Definition InstInput : byte := ","%byte.
Definition InstLoopStart : byte := "["%byte.
Definition InstLoopEnd : byte := "]"%byte.

Definition DefaultPageSize : Z := 1024.

(** ** Data *)

Record Closure := mkClosure {
  Skip : bool;
  Root : bool;
  Start : Z
}.

(** One line of the debug trace: the instruction, the instruction pointer,
    the current cell, the data pointer and the reserved data size. *)
Definition TraceLine : Type := (byte * Z * Z * Z * Z)%type.

Record Processor := mkProcessor {
  Data : list Z;
  DataPointer : Z;
  Debug : bool;
  stdin : list byte;
  instructionPointer : Z;
  instructionBuffer : list byte;
  closures : list Closure;
  (* the process streams *)
  stdout : list Z;
  stderr : list TraceLine
}.

(** The ways a run ends abnormally.  The first four are the [log.Fatal]
    calls of the program, under the names the specification gives them:
    - [OutOfBoundsError]: "can not move data pointer left, already at
      beginning of data";
    - [UnbalancedLoopError]: "unexpected end of closure, not in any
      closure";
    - [UnterminatedLoopError]: "unexpected end of instructions, still in a
      closure";
    - [IOError]: the error of [ReadByte].
    [RuntimePanic] is Go's own index-out-of-range panic. *)
Inductive Error :=
| OutOfBoundsError
| UnbalancedLoopError
| UnterminatedLoopError
| IOError
| RuntimePanic.

Inductive Result :=
| Ok (p : Processor)
| Abort (e : Error) (p : Processor).

(** ** Go primitives *)

Definition len {A} (s : list A) : Z := Z.of_nat (length s).

(** [s[i]] for reading: [None] is the index-out-of-range panic. *)
Definition at_index {A} (s : list A) (i : Z) : option A :=
  if decide (0 <= i) then s !! Z.to_nat i else None.

(** [s[i] = v], used once [s[i]] is known to be in range. *)
Definition store {A} (s : list A) (i : Z) (v : A) : list A :=
  <[Z.to_nat i := v]> s.

(** [make([]byte, n)]: [n] zero bytes. *)
Definition make (n : Z) : list Z := repeat 0 (Z.to_nat n).

Definition byte_val (b : byte) : Z := Z.of_N (Byte.to_N b).

(** [utf8.AppendRune], which [fmt.Printf("%c", r)] writes for a rune [r]. *)
Definition EncodeRune (r : Z) : list Z :=
  if r <=? 0x7F then [r]
  else if r <=? 0x7FF then
    [Z.lor 0xC0 (Z.shiftr r 6); Z.lor 0x80 (Z.land r 0x3F)]
  else if (0x10FFFF <? r) || ((0xD800 <=? r) && (r <=? 0xDFFF)) then
    [0xEF; 0xBF; 0xBD]
  else if r <=? 0xFFFF then
    [Z.lor 0xE0 (Z.shiftr r 12);
     Z.lor 0x80 (Z.land (Z.shiftr r 6) 0x3F);
     Z.lor 0x80 (Z.land r 0x3F)]
  else
    [Z.lor 0xF0 (Z.shiftr r 18);
     Z.lor 0x80 (Z.land (Z.shiftr r 12) 0x3F);
     Z.lor 0x80 (Z.land (Z.shiftr r 6) 0x3F);
     Z.lor 0x80 (Z.land r 0x3F)].

(** ** Field updates *)

Definition set_Data (p : Processor) (d : list Z) : Processor :=
  mkProcessor d (DataPointer p) (Debug p) (stdin p) (instructionPointer p)
    (instructionBuffer p) (closures p) (stdout p) (stderr p).

Definition set_DataPointer (p : Processor) (i : Z) : Processor :=
  mkProcessor (Data p) i (Debug p) (stdin p) (instructionPointer p)
    (instructionBuffer p) (closures p) (stdout p) (stderr p).

Definition set_Debug (p : Processor) (b : bool) : Processor :=
  mkProcessor (Data p) (DataPointer p) b (stdin p) (instructionPointer p)
    (instructionBuffer p) (closures p) (stdout p) (stderr p).

Definition set_stdin (p : Processor) (r : list byte) : Processor :=
  mkProcessor (Data p) (DataPointer p) (Debug p) r (instructionPointer p)
    (instructionBuffer p) (closures p) (stdout p) (stderr p).

Definition set_instructionPointer (p : Processor) (i : Z) : Processor :=
  mkProcessor (Data p) (DataPointer p) (Debug p) (stdin p) i
    (instructionBuffer p) (closures p) (stdout p) (stderr p).

Definition set_instructionBuffer (p : Processor) (b : list byte) : Processor :=
  mkProcessor (Data p) (DataPointer p) (Debug p) (stdin p)
    (instructionPointer p) b (closures p) (stdout p) (stderr p).

Definition set_closures (p : Processor) (c : list Closure) : Processor :=
  mkProcessor (Data p) (DataPointer p) (Debug p) (stdin p)
    (instructionPointer p) (instructionBuffer p) c (stdout p) (stderr p).

Definition set_stdout (p : Processor) (o : list Z) : Processor :=
  mkProcessor (Data p) (DataPointer p) (Debug p) (stdin p)
    (instructionPointer p) (instructionBuffer p) (closures p) o (stderr p).

Definition set_stderr (p : Processor) (t : list TraceLine) : Processor :=
  mkProcessor (Data p) (DataPointer p) (Debug p) (stdin p)
    (instructionPointer p) (instructionBuffer p) (closures p) (stdout p) t.

(** ** The processor *)

(** [NewProcessor]: one zeroed page, the root closure, an empty program.
    [osStdin] is what the process's standard input holds. *)
Definition NewProcessor (osStdin : list byte) : Processor :=
  mkProcessor (make DefaultPageSize) 0 false osStdin 0 []
    [mkClosure false true 0] [] [].

Definition Stdin (p : Processor) (r : list byte) : Processor :=
  set_stdin p r.

Definition ensureDataSize (p : Processor) : Processor :=
  if len (Data p) <=? DataPointer p then
    (* Increase data array, lock to next page size *)
    let nextPagedSize :=
      (1 + Z.quot (DataPointer p) DefaultPageSize) * DefaultPageSize in
    set_Data p (Data p ++ make (1 + nextPagedSize - len (Data p)))
  else p.

Definition Load (p : Processor) (instructions : list byte) : Processor :=
  set_instructionPointer (set_instructionBuffer p instructions) 0.

Definition Current (p : Processor) : option Z :=
  at_index (Data p) (DataPointer p).

(** [p.closures[0].Skip]; [None] when the slice is empty. *)
Definition topSkip (p : Processor) : option bool :=
  match closures p with
  | c :: _ => Some (Skip c)
  | [] => None
  end.

Definition Increment (p : Processor) : Result :=
  match topSkip p with
  | None => Abort RuntimePanic p
  | Some true => Ok p
  | Some false =>
    match Current p with
    | None => Abort RuntimePanic p
    | Some v => Ok (set_Data p (store (Data p) (DataPointer p) ((v + 1) mod 256)))
    end
  end.

Definition Decrement (p : Processor) : Result :=
  match topSkip p with
  | None => Abort RuntimePanic p
  | Some true => Ok p
  | Some false =>
    match Current p with
    | None => Abort RuntimePanic p
    | Some v => Ok (set_Data p (store (Data p) (DataPointer p) ((v - 1) mod 256)))
    end
  end.

Definition MoveRight (p : Processor) : Result :=
  match topSkip p with
  | None => Abort RuntimePanic p
  | Some true => Ok p
  | Some false => Ok (ensureDataSize (set_DataPointer p (DataPointer p + 1)))
  end.

Definition MoveLeft (p : Processor) : Result :=
  match topSkip p with
  | None => Abort RuntimePanic p
  | Some true => Ok p
  | Some false =>
    if DataPointer p =? 0 then Abort OutOfBoundsError p
    else Ok (set_DataPointer p (DataPointer p - 1))
  end.

Definition Output (p : Processor) : Result :=
  match topSkip p with
  | None => Abort RuntimePanic p
  | Some true => Ok p
  | Some false =>
    match Current p with
    | None => Abort RuntimePanic p
    | Some v => Ok (set_stdout p (stdout p ++ EncodeRune v))
    end
  end.

Definition Input (p : Processor) : Result :=
  match topSkip p with
  | None => Abort RuntimePanic p
  | Some true => Ok p
  | Some false =>
    match stdin p with
    | [] => Abort IOError p
    | input :: rest =>
      let p' := set_stdin p rest in
      match Current p' with
      | None => Abort RuntimePanic p'
      | Some _ =>
        Ok (set_Data p' (store (Data p') (DataPointer p') (byte_val input)))
      end
    end
  end.

Definition StartLoop (p : Processor) : Result :=
  match Current p with
  | None => Abort RuntimePanic p
  | Some v =>
    Ok (set_closures p
          (mkClosure (v =? 0) false (instructionPointer p) :: closures p))
  end.

Definition EndLoop (p : Processor) : Result :=
  if len (closures p) <=? 1 then Abort UnbalancedLoopError p
  else
    match closures p with
    | [] => Abort RuntimePanic p
    | currentClosure :: rest =>
      if negb (Skip currentClosure) then
        match Current p with
        | None => Abort RuntimePanic p
        | Some v =>
          if 0 <? v then Ok (set_instructionPointer p (Start currentClosure))
          else Ok (set_closures p rest)
        end
      else Ok (set_closures p rest)
    end.

Definition ExpectEnd (p : Processor) : Result :=
  if 1 <? len (closures p) then Abort UnterminatedLoopError p else Ok p.

(** The [switch] of [Execute]. *)
Definition dispatch (instruction : byte) (p : Processor) : Result :=
  if Byte.eqb instruction InstMoveRight then MoveRight p
  else if Byte.eqb instruction InstMoveLeft then MoveLeft p
  else if Byte.eqb instruction InstDecrement then Decrement p
  else if Byte.eqb instruction InstIncrement then Increment p
  else if Byte.eqb instruction InstInput then Input p
  else if Byte.eqb instruction InstOutput then Output p
  else if Byte.eqb instruction InstLoopStart then StartLoop p
  else if Byte.eqb instruction InstLoopEnd then EndLoop p
  else Ok p.

(** The debug trace printed before an instruction when [Debug] is set. *)
Definition trace (instruction : byte) (p : Processor) : Result :=
  if Debug p then
    match Current p with
    | None => Abort RuntimePanic p
    | Some v =>
      Ok (set_stderr p
            (stderr p ++ [(instruction, instructionPointer p, v,
                           DataPointer p, len (Data p))]))
    end
  else Ok p.

(** One turn of the [for] loop of [Execute], entered with
    [instructionPointer < len instructionBuffer]. *)
Definition iteration (p : Processor) : Result :=
  match at_index (instructionBuffer p) (instructionPointer p) with
  | None => Abort RuntimePanic p
  | Some instruction =>
    match trace instruction p with
    | Abort e q => Abort e q
    | Ok p1 =>
      match dispatch instruction p1 with
      | Abort e q => Abort e q
      | Ok p2 => Ok (set_instructionPointer p2 (instructionPointer p2 + 1))
      end
    end
  end.

(** How a bounded run of the dispatch loop ends: the loop left with the
    instruction pointer at the end of the buffer, the process ended by an
    error, or the loop still running when the fuel is spent. *)
Inductive Outcome :=
| Done (p : Processor)
| Failed (e : Error) (p : Processor)
| Running (p : Processor).

Fixpoint Execute (fuel : nat) (p : Processor) : Outcome :=
  if instructionPointer p <? len (instructionBuffer p) then
    match fuel with
    | O => Running p
    | S fuel' =>
      match iteration p with
      | Ok p' => Execute fuel' p'
      | Abort e q => Failed e q
      end
    end
  else Done p.

(** [main] of the revision with the command line flags
    (src/unnamed/part_000): [input] is the content of the source file,
    [debug] the value of the debug flag. *)
Definition main (fuel : nat) (debug : bool) (input osStdin : list byte)
  : Outcome :=
  let p := set_Debug (NewProcessor osStdin) debug in
  match Execute fuel (Load p input) with
  | Done q =>
    match ExpectEnd q with
    | Ok q' => Done q'
    | Abort e q' => Failed e q'
    end
  | o => o
  end.

(** [main] of src/main.go, the revision without flags: it stops after
    [Execute]. *)
Definition main_plain (fuel : nat) (input osStdin : list byte) : Outcome :=
  Execute fuel (Load (NewProcessor osStdin) input).

(** [n] turns of the dispatch loop. *)
Fixpoint iterate (n : nat) (p : Processor) : Result :=
  match n with
  | O => Ok p
  | S n' =>
    match iteration p with
    | Ok p' => iterate n' p'
    | Abort e q => Abort e q
    end
  end.

Definition program (s : string) : list byte := list_byte_of_string s.


(** ** Lexical structure of a program *)

(** The positions of the loop starts still open after the first [i] bytes
    of [prog], innermost first; [None] when a loop end among them has no
    loop start to close. *)
Fixpoint opens (prog : list byte) (i : nat) : option (list Z) :=
  match i with
  | O => Some []
  | S j =>
    match opens prog j with
    | None => None
    | Some stk =>
      match prog !! j with
      | None => Some stk
      | Some c =>
        if Byte.eqb c InstLoopStart then Some (Z.of_nat j :: stk)
        else if Byte.eqb c InstLoopEnd then
          match stk with
          | [] => None
          | _ :: r => Some r
          end
        else Some stk
      end
    end
  end.

(** A program is balanced when every loop end closes a loop start and no
    loop start is left open at its end. *)
Definition Balanced (prog : list byte) : Prop :=
  opens prog (length prog) = Some [].

(** The offset in [l] of the loop end that closes the loop entered
    [depth] + 1 levels above the head of [l]. *)
Fixpoint scan (l : list byte) (depth : nat) : option nat :=
  match l with
  | [] => None
  | c :: l' =>
    if Byte.eqb c InstLoopEnd then
      match depth with
      | O => Some O
      | S d => option_map S (scan l' d)
      end
    else if Byte.eqb c InstLoopStart then option_map S (scan l' (S depth))
    else option_map S (scan l' depth)
  end.

(** The position of the loop end matching the loop start at [i]. *)
Definition matching (prog : list byte) (i : Z) : option Z :=
  option_map (fun k => i + 1 + Z.of_nat k)
    (scan (drop (S (Z.to_nat i)) prog) 0).

(** The number of occurrences of an instruction in a program. *)
Definition count (c : byte) (l : list byte) : Z :=
  len (List.filter (Byte.eqb c) l).

(** ** States of a run *)

Definition state_of (o : Outcome) : Processor :=
  match o with
  | Done p => p
  | Failed _ p => p
  | Running p => p
  end.

(** The process as [main] starts it. *)
Definition boot (debug : bool) (input osStdin : list byte) : Processor :=
  Load (set_Debug (NewProcessor osStdin) debug) input.

(** The cursor indexes a cell of the tape. *)
Definition valid_cursor (p : Processor) : Prop :=
  0 <= DataPointer p < len (Data p).

(** What a skipped region leaves alone: the tape, the cursor and the two
    byte streams (and, as everywhere, the program and the debug flag). *)
Definition frozen (p q : Processor) : Prop :=
  Data q = Data p /\ DataPointer q = DataPointer p /\
  stdin q = stdin p /\ stdout q = stdout p /\
  instructionBuffer q = instructionBuffer p /\ Debug q = Debug p.

(** The invariant of the dispatch loop. *)
Record Inv (p : Processor) : Prop := mkInv {
  inv_cursor : valid_cursor p;
  inv_cells : Forall (fun v => 0 <= v < 256) (Data p);
  inv_ip : 0 <= instructionPointer p <= len (instructionBuffer p);
  inv_stack : exists frames r,
      closures p = frames ++ [r] /\
      opens (instructionBuffer p) (Z.to_nat (instructionPointer p))
      = Some (map Start frames)
}.

(** ** Predicates of the proofs *)

(** The tape part of the invariant. *)
Definition tape_ok (p : Processor) : Prop :=
  valid_cursor p /\ Forall (fun v => 0 <= v < 256) (Data p).

(** The control part of a processor and its debug flag are untouched. *)
Definition same_control (p q : Processor) : Prop :=
  closures q = closures p /\
  instructionPointer q = instructionPointer p /\
  instructionBuffer q = instructionBuffer p /\
  Debug q = Debug p.

(** What a handler that only works on the tape and the streams does to a
    well-formed state: it returns a well-formed state with the same
    control part, or it ends the run in the state it was given, with
    one of its own two errors. *)
Definition tape_handler (h : Processor -> Result) : Prop :=
  forall p, tape_ok p -> closures p <> [] ->
    match h p with
    | Ok q => tape_ok q /\ same_control p q
    | Abort e q => (e = OutOfBoundsError \/ e = IOError) /\ q = p
    end.

(** The result of one turn from a state that satisfies the invariant. *)
Definition turn_ok (p : Processor) (r : Result) : Prop :=
  match r with
  | Ok q =>
    Inv q /\ instructionBuffer q = instructionBuffer p /\ Debug q = Debug p
  | Abort e q =>
    (exists t, q = set_stderr p t) /\
    (e = OutOfBoundsError \/ e = IOError \/
     e = UnbalancedLoopError /\
     opens (instructionBuffer p) (S (Z.to_nat (instructionPointer p))) = None)
  end.

(** What a bounded run from a state that satisfies the invariant ends
    in. *)
Definition run_ok (p : Processor) (o : Outcome) : Prop :=
  Inv (state_of o) /\
  instructionBuffer (state_of o) = instructionBuffer p /\
  match o with
  | Done q => instructionPointer q = len (instructionBuffer p)
  | Running q => instructionPointer q < len (instructionBuffer p)
  | Failed e q =>
    e = OutOfBoundsError \/ e = IOError \/
    e = UnbalancedLoopError /\
    exists j, (j < length (instructionBuffer p))%nat /\
              opens (instructionBuffer p) (S j) = None
  end.

(** ** One turn as a relation *)

(** The closure [NewProcessor] puts at the bottom of the stack. *)
Definition rootClosure : Closure := mkClosure false true 0.

(** What one turn of the dispatch loop can do to a state [p] (taken after
    the debug trace): nothing but move on; change the current cell by an
    increment or a decrement; store an input byte; move the cursor; write
    the cell out; open a closure; pop one; or jump back to the
    instruction after a loop start. *)
Inductive Step (p : Processor) : Processor -> Prop :=
| S_noop :
    Step p (set_instructionPointer p (instructionPointer p + 1))
| S_cell (v v' : Z) :
    topSkip p = Some false ->
    Current p = Some v ->
    v' = (v + 1) mod 256 \/ v' = (v - 1) mod 256 ->
    Step p (set_instructionPointer
              (set_Data p (store (Data p) (DataPointer p) v'))
              (instructionPointer p + 1))
| S_input (b : byte) (rest : list byte) (v : Z) :
    topSkip p = Some false ->
    stdin p = b :: rest ->
    Current p = Some v ->
    Step p (set_instructionPointer
              (set_Data (set_stdin p rest)
                 (store (Data p) (DataPointer p) (byte_val b)))
              (instructionPointer p + 1))
| S_right :
    topSkip p = Some false ->
    Step p (set_instructionPointer
              (ensureDataSize (set_DataPointer p (DataPointer p + 1)))
              (instructionPointer p + 1))
| S_left :
    topSkip p = Some false ->
    DataPointer p <> 0 ->
    Step p (set_instructionPointer
              (set_DataPointer p (DataPointer p - 1))
              (instructionPointer p + 1))
| S_out (v : Z) :
    topSkip p = Some false ->
    Current p = Some v ->
    Step p (set_instructionPointer
              (set_stdout p (stdout p ++ EncodeRune v))
              (instructionPointer p + 1))
| S_open (v : Z) :
    Current p = Some v ->
    Step p (set_instructionPointer
              (set_closures p
                 (mkClosure (v =? 0) false (instructionPointer p)
                    :: closures p))
              (instructionPointer p + 1))
| S_pop (c : Closure) (rest : list Closure) :
    closures p = c :: rest ->
    rest <> [] ->
    Skip c = true \/ (exists v, Current p = Some v /\ v <= 0) ->
    Step p (set_instructionPointer (set_closures p rest)
              (instructionPointer p + 1))
| S_jump (c : Closure) (rest : list Closure) (v : Z) :
    closures p = c :: rest ->
    rest <> [] ->
    Skip c = false ->
    Current p = Some v ->
    0 < v ->
    Step p (set_instructionPointer p (Start c + 1)).

(** ** Observable state *)

(** A processor without what the debug flag adds: the flag itself and
    the log stream. *)
Definition erase (p : Processor) : Processor :=
  set_stderr (set_Debug p false) [].

Definition map_result (f : Processor -> Processor) (r : Result) : Result :=
  match r with
  | Ok p => Ok (f p)
  | Abort e p => Abort e (f p)
  end.

Definition map_outcome (f : Processor -> Processor) (o : Outcome) : Outcome :=
  match o with
  | Done p => Done (f p)
  | Failed e p => Failed e (f p)
  | Running p => Running (f p)
  end.

(** The eight bytes [Execute] acts on. *)
Definition is_instruction (c : byte) : bool :=
  existsb (Byte.eqb c)
    [InstMoveRight; InstMoveLeft; InstDecrement; InstIncrement;
     InstInput; InstOutput; InstLoopStart; InstLoopEnd].

(** The shape the tape can have: the first page, or one cell more than
    a whole number of pages. *)
Definition tape_shape (p : Processor) : Prop :=
  DefaultPageSize <= len (Data p) /\
  (len (Data p) = DefaultPageSize \/ len (Data p) mod DefaultPageSize = 1).

(** Below a skipping closure nothing runs: the current cell is zero and
    every closure above it skips as well. *)
Definition skip_coherent (p : Processor) : Prop :=
  forall pre c post,
    closures p = pre ++ c :: post ->
    Skip c = true ->
    Current p = Some 0 /\ Forall (fun f => Skip f = true) pre.

(** The root closure is at the bottom of the stack, and only there. *)
Definition root_at_bottom (p : Processor) : Prop :=
  exists frames,
    closures p = frames ++ [rootClosure] /\
    Forall (fun f => Root f = false) frames.

(** ** Programs without their comments *)

(** A program with every byte that is no instruction removed. *)
Definition strip (prog : list byte) : list byte :=
  List.filter is_instruction prog.

(** The position in [strip prog] of what is at position [i] of [prog]:
    the number of instructions before [i]. *)
Definition rank (prog : list byte) (i : Z) : Z :=
  len (strip (take (Z.to_nat i) prog)).

(** A processor moved to another program text [buf], its positions
    translated by [g]; the debug flag and the log are dropped. *)
Definition relocate (g : Z -> Z) (buf : list byte) (p : Processor)
  : Processor :=
  mkProcessor (Data p) (DataPointer p) false (stdin p)
    (g (instructionPointer p)) buf
    (map (fun c => mkClosure (Skip c) (Root c) (g (Start c))) (closures p))
    (stdout p) [].

(** A processor on a program, moved to the program without comments. *)
Definition stripped (p : Processor) : Processor :=
  relocate (rank (instructionBuffer p)) (strip (instructionBuffer p)) p.

(** What a finished run on a program says of the run on the program
    without comments. *)
Definition strip_ok (fuel : nat) (p : Processor) (o : Outcome) : Prop :=
  match o with
  | Done q =>
    exists fuel', (fuel' <= fuel)%nat /\
                  Execute fuel' (stripped p) = Done (stripped q)
  | Failed e q =>
    exists fuel', (fuel' <= fuel)%nat /\
                  Execute fuel' (stripped p) = Failed e (stripped q)
  | Running _ => True
  end.

(** * Proofs *)

(** ** Slices *)

Lemma len_nonneg {A} (s : list A) : 0 <= len s.
Proof. unfold len. lia. Qed.

Lemma len_app {A} (s t : list A) : len (s ++ t) = len s + len t.
Proof. unfold len. rewrite length_app. lia. Qed.

Lemma len_cons {A} (x : A) (s : list A) : len (x :: s) = 1 + len s.
Proof. unfold len. simpl. lia. Qed.

Lemma len_make (n : Z) : 0 <= n -> len (make n) = n.
Proof. intros H. unfold len, make. rewrite repeat_length. lia. Qed.

Lemma at_index_Some {A} (s : list A) (i : Z) (v : A) :
  at_index s i = Some v -> 0 <= i < len s.
Proof.
  unfold at_index, len. destruct (decide (0 <= i)) as [Hi|Hi]; [|discriminate].
  intros H. apply lookup_lt_Some in H. lia.
Qed.

Lemma at_index_in_range {A} (s : list A) (i : Z) :
  0 <= i < len s -> exists v, at_index s i = Some v.
Proof.
  unfold at_index, len. intros [H0 H1].
  destruct (decide (0 <= i)) as [_|Hn]; [|lia].
  apply lookup_lt_is_Some_2. lia.
Qed.

Lemma at_index_nat {A} (s : list A) (n : nat) :
  at_index s (Z.of_nat n) = s !! n.
Proof.
  unfold at_index. destruct (decide (0 <= Z.of_nat n)) as [_|Hn]; [|lia].
  now rewrite Nat2Z.id.
Qed.

Lemma len_store {A} (s : list A) (i : Z) (v : A) : len (store s i v) = len s.
Proof. unfold len, store. now rewrite length_insert. Qed.

Lemma at_index_store_eq {A} (s : list A) (i : Z) (v : A) :
  0 <= i < len s -> at_index (store s i v) i = Some v.
Proof.
  unfold at_index, store, len. intros [H0 H1].
  destruct (decide (0 <= i)) as [_|Hn]; [|lia].
  apply list_lookup_insert_eq. lia.
Qed.

Lemma at_index_store_ne {A} (s : list A) (i j : Z) (v : A) :
  0 <= i -> i <> j -> at_index (store s i v) j = at_index s j.
Proof.
  unfold at_index, store. intros Hi Hne.
  destruct (decide (0 <= j)) as [Hj|Hn]; [|reflexivity].
  apply list_lookup_insert_ne. lia.
Qed.

Lemma Forall_store {A} (P : A -> Prop) (s : list A) (i : Z) (v : A) :
  Forall P s -> P v -> Forall P (store s i v).
Proof. intros Hs Hv. unfold store. now apply Forall_insert. Qed.

Lemma Forall_make (P : Z -> Prop) (n : Z) : P 0 -> Forall P (make n).
Proof.
  intros H0. unfold make. induction (Z.to_nat n); simpl; constructor; auto.
Qed.

Lemma at_index_Forall {A} (P : A -> Prop) (s : list A) (i : Z) (v : A) :
  Forall P s -> at_index s i = Some v -> P v.
Proof.
  unfold at_index. intros Hs. destruct (decide (0 <= i)); [|discriminate].
  intros H. eapply Forall_lookup_1; eauto.
Qed.

Lemma drop_head {A} (s : list A) (n : nat) (c : A) (l : list A) :
  drop n s = c :: l -> s !! n = Some c /\ drop (S n) s = l.
Proof.
  intros H.
  assert (Hc : s !! n = Some c).
  { pose proof (lookup_drop s n 0) as E. rewrite H in E. simpl in E.
    rewrite Nat.add_0_r in E. now symmetry. }
  split; [exact Hc|].
  rewrite (drop_S _ _ _ Hc) in H. now inversion H.
Qed.

Lemma byte_val_range (b : byte) : 0 <= byte_val b < 256.
Proof.
  unfold byte_val. pose proof (Byte.to_N_bounded b) as H. lia.
Qed.

(** ** The debug trace *)

(** The trace touches nothing but the log stream. *)
Lemma trace_Ok (i : byte) (p q : Processor) :
  trace i p = Ok q -> exists t, q = set_stderr p t.
Proof.
  unfold trace. destruct (Debug p).
  - destruct (Current p); [|discriminate].
    intros H. inversion H. eauto.
  - intros H. inversion H. subst. exists (stderr q). now destruct q.
Qed.

Lemma trace_off (i : byte) (p : Processor) :
  Debug p = false -> trace i p = Ok p.
Proof. unfold trace. now intros ->. Qed.

Lemma trace_defined (i : byte) (p : Processor) (v : Z) :
  Current p = Some v -> exists q, trace i p = Ok q.
Proof. unfold trace. intros ->. destruct (Debug p); eauto. Qed.

Lemma trace_Abort (i : byte) (p q : Processor) (e : Error) :
  trace i p = Abort e q -> e = RuntimePanic /\ Current p = None.
Proof.
  unfold trace. destruct (Debug p); [|discriminate].
  destruct (Current p); [discriminate|]. intros H. now inversion H.
Qed.

(** ** The handlers, one by one *)

Lemma topSkip_cons (p : Processor) (c : Closure) (rest : list Closure) :
  closures p = c :: rest -> topSkip p = Some (Skip c).
Proof. unfold topSkip. now intros ->. Qed.

(** C1. A loop end with only the root closure on the stack ends the run
    with [UnbalancedLoopError].  Otherwise, with [c] the top closure: if
    [c] skips, it is popped and the instruction pointer moves past the
    loop end; if [c] does not skip and the current cell is nonzero, the
    stack is left as it is and the instruction pointer becomes
    [Start c + 1], the instruction after the loop start; if [c] does not
    skip and the cell is zero, [c] is popped and the instruction pointer
    moves past the loop end.  [q] is [p] after the debug trace, which
    differs from [p] in the log stream only. *)
Theorem EndLoop_cases (p q : Processor) :
  at_index (instructionBuffer p) (instructionPointer p) = Some InstLoopEnd ->
  trace InstLoopEnd p = Ok q ->
  closures q = closures p /\
  (len (closures p) <= 1 -> iteration p = Abort UnbalancedLoopError q) /\
  (forall c rest, closures p = c :: rest -> rest <> [] ->
     (Skip c = true ->
        iteration p
        = Ok (set_instructionPointer (set_closures q rest)
                (instructionPointer p + 1))) /\
     (forall v, Skip c = false -> Current p = Some v -> 0 < v ->
        iteration p = Ok (set_instructionPointer q (Start c + 1))) /\
     (Skip c = false -> Current p = Some 0 ->
        iteration p
        = Ok (set_instructionPointer (set_closures q rest)
                (instructionPointer p + 1)))).
Proof.
  intros Hfetch Htrace.
  destruct (trace_Ok _ _ _ Htrace) as [t ->].
  split; [reflexivity|].
  unfold iteration. rewrite Hfetch, Htrace.
  change (dispatch InstLoopEnd (set_stderr p t))
    with (EndLoop (set_stderr p t)).
  unfold EndLoop, Current. simpl. split.
  - intros Hlen. apply Z.leb_le in Hlen. now rewrite Hlen.
  - intros c rest Hc Hrest. rewrite Hc.
    assert (Hlen : (len (c :: rest) <=? 1) = false).
    { apply Z.leb_gt. rewrite len_cons. destruct rest; [easy|].
      rewrite len_cons. pose proof (len_nonneg rest). lia. }
    rewrite Hlen. repeat split.
    + intros ->. reflexivity.
    + intros v -> Hv Hpos. simpl. unfold Current in Hv. rewrite Hv.
      apply Z.ltb_lt in Hpos. now rewrite Hpos.
    + intros -> Hv. simpl. unfold Current in Hv. now rewrite Hv.
Qed.

(** C8. A move left that is not skipped ends the run with
    [OutOfBoundsError] when the cursor is 0, the cursor still at 0, and
    otherwise moves the cursor down by exactly one. *)
Theorem MoveLeft_cases (p : Processor) :
  topSkip p = Some false ->
  (DataPointer p = 0 ->
     dispatch InstMoveLeft p = Abort OutOfBoundsError p) /\
  (0 < DataPointer p ->
     dispatch InstMoveLeft p = Ok (set_DataPointer p (DataPointer p - 1)) /\
     DataPointer (set_DataPointer p (DataPointer p - 1)) = DataPointer p - 1).
Proof.
  intros Hskip.
  change (dispatch InstMoveLeft p) with (MoveLeft p).
  unfold MoveLeft. rewrite Hskip. split.
  - intros ->. reflexivity.
  - intros Hpos. split; [|reflexivity].
    destruct (DataPointer p =? 0) eqn:E; [|reflexivity].
    apply Z.eqb_eq in E. lia.
Qed.

(** The two bytes [utf8.AppendRune] writes for a rune in [128, 256). *)
Lemma EncodeRune_two_bytes (v : Z) :
  128 <= v < 256 -> EncodeRune v = [192 + v / 64; 128 + v mod 64].
Proof.
  intros Hv.
  assert (Hall : forallb (fun n =>
            let v := 128 + Z.of_nat n in
            match EncodeRune v with
            | [a; b] => (a =? 192 + v / 64) && (b =? 128 + v mod 64)
            | _ => false
            end) (seq 0 128) = true) by (vm_compute; reflexivity).
  rewrite forallb_forall in Hall.
  specialize (Hall (Z.to_nat (v - 128))).
  assert (Hin : In (Z.to_nat (v - 128)) (seq 0 128)) by (apply in_seq; lia).
  specialize (Hall Hin). cbv zeta in Hall.
  replace (128 + Z.of_nat (Z.to_nat (v - 128))) with v in Hall by lia.
  destruct (EncodeRune v) as [|a [|b [|? ?]]]; try discriminate.
  apply andb_true_iff in Hall. destruct Hall as [Ha Hb].
  apply Z.eqb_eq in Ha, Hb. now subst.
Qed.

(** C9. An output that is not skipped writes the current cell as a
    Unicode code point in UTF-8: a cell below 128 as the one byte of its
    value, a cell from 128 to 255 as the two bytes [192 + v / 64] and
    [128 + v mod 64], which is never the single byte [v]. *)
Theorem Output_code_point (p : Processor) (v : Z) :
  topSkip p = Some false ->
  Current p = Some v ->
  0 <= v < 256 ->
  dispatch InstOutput p = Ok (set_stdout p (stdout p ++ EncodeRune v)) /\
  (v < 128 -> EncodeRune v = [v]) /\
  (128 <= v ->
     EncodeRune v = [192 + v / 64; 128 + v mod 64] /\ EncodeRune v <> [v]).
Proof.
  intros Hskip Hcur Hv.
  change (dispatch InstOutput p) with (Output p).
  unfold Output. rewrite Hskip, Hcur. split; [reflexivity|]. split.
  - intros Hlt. unfold EncodeRune.
    destruct (v <=? 127) eqn:E; [reflexivity|]. apply Z.leb_gt in E. lia.
  - intros Hge. rewrite EncodeRune_two_bytes by lia.
    split; [reflexivity|discriminate].
Qed.

(** C10. [Load] installs the instruction buffer and sets the instruction
    pointer to 0; the tape, the cursor, the closure stack, the input
    stream and everything else stay as they were.  A second [Load] and
    [Execute] on the same processor therefore starts from what the first
    run left: after a run of [+] a run of [.] writes 1, not the 0 of a
    fresh tape, and after a run of [[] on a zero cell, which leaves a
    skipping closure behind, a run of [+] changes nothing. *)
Theorem Load_frame :
  (forall p instructions,
     instructionBuffer (Load p instructions) = instructions /\
     instructionPointer (Load p instructions) = 0 /\
     Data (Load p instructions) = Data p /\
     DataPointer (Load p instructions) = DataPointer p /\
     closures (Load p instructions) = closures p /\
     stdin (Load p instructions) = stdin p /\
     stdout (Load p instructions) = stdout p /\
     stderr (Load p instructions) = stderr p /\
     Debug (Load p instructions) = Debug p) /\
  (exists q1 q2 q3,
     Execute 1 (Load (NewProcessor []) (program "+")) = Done q1 /\
     Execute 1 (Load q1 (program ".")) = Done q2 /\ stdout q2 = [1] /\
     Execute 1 (Load (NewProcessor []) (program ".")) = Done q3 /\
     stdout q3 = [0]) /\
  (exists q1 q2,
     Execute 1 (Load (NewProcessor []) (program "[")) = Done q1 /\
     Execute 1 (Load q1 (program "+")) = Done q2 /\
     Current q2 = Some 0 /\ len (closures q2) = 2).
Proof.
  split; [|split].
  - intros p instructions. repeat split.
  - eexists _, _, _.
    split; [vm_compute; reflexivity|].
    split; [vm_compute; reflexivity|].
    split; [reflexivity|].
    split; [vm_compute; reflexivity|reflexivity].
  - eexists _, _.
    split; [vm_compute; reflexivity|].
    split; [vm_compute; reflexivity|].
    split; reflexivity.
Qed.

(** ** Growth of the tape *)

Lemma nextPagedSize_gt (i : Z) :
  0 <= i -> i < (1 + Z.quot i DefaultPageSize) * DefaultPageSize.
Proof.
  intros Hi. unfold DefaultPageSize.
  rewrite Z.quot_div_nonneg by lia.
  pose proof (Z.mul_succ_div_gt i 1024 ltac:(lia)). lia.
Qed.

(** When [ensureDataSize] grows the tape, the new length is one more than
    the next page boundary above the cursor. *)
Lemma ensureDataSize_grow (p : Processor) :
  0 <= DataPointer p ->
  len (Data p) <= DataPointer p ->
  len (Data (ensureDataSize p))
  = (1 + DataPointer p / DefaultPageSize) * DefaultPageSize + 1.
Proof.
  intros H0 Hle. unfold ensureDataSize.
  apply Z.leb_le in Hle as Hb. rewrite Hb. simpl.
  pose proof (nextPagedSize_gt _ H0) as Hgt.
  rewrite len_app, len_make by lia.
  rewrite Z.quot_div_nonneg by (unfold DefaultPageSize; lia). lia.
Qed.

Lemma ensureDataSize_keep (p : Processor) :
  DataPointer p < len (Data p) -> ensureDataSize p = p.
Proof.
  intros Hlt. unfold ensureDataSize.
  apply Z.leb_gt in Hlt. now rewrite Hlt.
Qed.

Lemma ensureDataSize_valid (p : Processor) :
  0 <= DataPointer p -> valid_cursor (ensureDataSize p).
Proof.
  intros H0. unfold valid_cursor.
  destruct (Z_lt_le_dec (DataPointer p) (len (Data p))) as [Hlt|Hle].
  - rewrite ensureDataSize_keep by assumption. lia.
  - rewrite ensureDataSize_grow by assumption.
    pose proof (nextPagedSize_gt _ H0) as Hgt.
    rewrite Z.quot_div_nonneg in Hgt by (unfold DefaultPageSize; lia).
    unfold ensureDataSize. destruct (len (Data p) <=? DataPointer p); simpl; lia.
Qed.

Lemma ensureDataSize_fields (p : Processor) :
  DataPointer (ensureDataSize p) = DataPointer p /\
  closures (ensureDataSize p) = closures p /\
  instructionPointer (ensureDataSize p) = instructionPointer p /\
  instructionBuffer (ensureDataSize p) = instructionBuffer p /\
  stdin (ensureDataSize p) = stdin p /\
  stdout (ensureDataSize p) = stdout p /\
  Debug (ensureDataSize p) = Debug p.
Proof.
  unfold ensureDataSize.
  destruct (len (Data p) <=? DataPointer p); repeat split.
Qed.

Lemma ensureDataSize_cells (p : Processor) :
  Forall (fun v => 0 <= v < 256) (Data p) ->
  Forall (fun v => 0 <= v < 256) (Data (ensureDataSize p)).
Proof.
  intros H. unfold ensureDataSize.
  destruct (len (Data p) <=? DataPointer p); [|assumption].
  simpl. apply Forall_app. split; [assumption|].
  apply Forall_make. lia.
Qed.

(** ** The handlers keep the tape well formed *)

Lemma topSkip_defined (p : Processor) :
  closures p <> [] -> exists b, topSkip p = Some b.
Proof. unfold topSkip. destruct (closures p); [easy|eauto]. Qed.

Ltac start_handler p Hok Hne :=
  intros p Hok Hne;
  let b := fresh "b" in
  let Hb := fresh "Hb" in
  destruct (topSkip_defined p Hne) as [b Hb];
  rewrite Hb; destruct b; [now split; [exact Hok|split]|].

Ltac read_cell p Hok v Hv :=
  destruct (at_index_in_range (Data p) (DataPointer p) (proj1 Hok)) as [v Hv];
  unfold Current; rewrite Hv.

Lemma Increment_tape : tape_handler Increment.
Proof.
  unfold Increment. start_handler p Hok Hne. read_cell p Hok v Hv.
  destruct Hok as [Hc Hcells].
  split; [split|now split].
  - unfold valid_cursor. simpl. now rewrite len_store.
  - apply Forall_store; [assumption|]. apply Z.mod_pos_bound. lia.
Qed.

Lemma Decrement_tape : tape_handler Decrement.
Proof.
  unfold Decrement. start_handler p Hok Hne. read_cell p Hok v Hv.
  destruct Hok as [Hc Hcells].
  split; [split|now split].
  - unfold valid_cursor. simpl. now rewrite len_store.
  - apply Forall_store; [assumption|]. apply Z.mod_pos_bound. lia.
Qed.

Lemma MoveRight_tape : tape_handler MoveRight.
Proof.
  unfold MoveRight. start_handler p Hok Hne.
  destruct Hok as [Hc Hcells].
  split; [split|].
  - apply ensureDataSize_valid. simpl. unfold valid_cursor in Hc. lia.
  - apply ensureDataSize_cells. assumption.
  - pose proof (ensureDataSize_fields
                  (set_DataPointer p (DataPointer p + 1))) as F.
    unfold same_control. now intuition.
Qed.

Lemma MoveLeft_tape : tape_handler MoveLeft.
Proof.
  unfold MoveLeft. start_handler p Hok Hne.
  destruct (DataPointer p =? 0) eqn:E; [split; [auto|reflexivity]|].
  apply Z.eqb_neq in E. destruct Hok as [Hc Hcells].
  split; [split; [|assumption]|now split].
  unfold valid_cursor in *. simpl. lia.
Qed.

Lemma Output_tape : tape_handler Output.
Proof.
  unfold Output. start_handler p Hok Hne. read_cell p Hok v Hv.
  destruct Hok as [Hc Hcells]. split; [now split|now split].
Qed.

Lemma Input_tape : tape_handler Input.
Proof.
  unfold Input. start_handler p Hok Hne.
  destruct (stdin p) as [|input rest]; [split; [auto|reflexivity]|].
  unfold Current. simpl.
  destruct (at_index_in_range (Data p) (DataPointer p) (proj1 Hok)) as [v Hv].
  rewrite Hv. destruct Hok as [Hc Hcells].
  split; [split|now split].
  - unfold valid_cursor. simpl. now rewrite len_store.
  - apply Forall_store; [assumption|]. apply byte_val_range.
Qed.

(** ** Open loops of a program text *)

Lemma opens_S (prog : list byte) (j : nat) :
  opens prog (S j) =
  match opens prog j with
  | None => None
  | Some stk =>
    match prog !! j with
    | None => Some stk
    | Some c =>
      if Byte.eqb c InstLoopStart then Some (Z.of_nat j :: stk)
      else if Byte.eqb c InstLoopEnd then
        match stk with [] => None | _ :: r => Some r end
      else Some stk
    end
  end.
Proof. reflexivity. Qed.

Lemma opens_le (prog : list byte) (n m : nat) (stk : list Z) :
  opens prog n = Some stk -> (m <= n)%nat ->
  exists stk', opens prog m = Some stk'.
Proof.
  intros Hn Hle. revert stk Hn.
  induction Hle as [|n Hle IH]; intros stk Hn; [eauto|].
  rewrite opens_S in Hn.
  destruct (opens prog n) as [s|]; [|discriminate]. eauto.
Qed.

(** Every position on the stack of open loops is that of a loop start
    before [i], and the stack just after that loop start was the part of
    the stack from that position down. *)
Lemma opens_suffix (prog : list byte) (i : nat) :
  forall stk pre s rest,
    opens prog i = Some stk -> stk = pre ++ s :: rest ->
    0 <= s < Z.of_nat i /\
    opens prog (S (Z.to_nat s)) = Some (s :: rest).
Proof.
  induction i as [|j IH]; intros stk pre s rest Hopen Hstk.
  - simpl in Hopen. inversion Hopen. subst. now destruct pre.
  - pose proof Hopen as Hfull.
    rewrite opens_S in Hopen.
    destruct (opens prog j) as [stk0|] eqn:Hj; [|discriminate].
    assert (Hweak : forall pre', stk0 = pre' ++ s :: rest ->
              0 <= s < Z.of_nat (S j) /\
              opens prog (S (Z.to_nat s)) = Some (s :: rest)).
    { intros pre' E. destruct (IH stk0 pre' s rest eq_refl E). split; [lia|easy]. }
    destruct (prog !! j) as [c|]; [|inversion Hopen; subst; eauto].
    destruct (Byte.eqb c InstLoopStart).
    + inversion Hopen as [E]. subst stk. destruct pre as [|x pre'].
      * simpl in E. inversion E. subst s rest.
        rewrite Nat2Z.id. split; [lia|exact Hfull].
      * simpl in E. inversion E. eauto.
    + destruct (Byte.eqb c InstLoopEnd).
      * destruct stk0 as [|x r]; [discriminate|].
        inversion Hopen. subst. apply (Hweak (x :: pre)). reflexivity.
      * inversion Hopen. subst. eauto.
Qed.

Lemma opens_top (prog : list byte) (i : nat) (s : Z) (rest : list Z) :
  opens prog i = Some (s :: rest) ->
  0 <= s < Z.of_nat i /\ opens prog (S (Z.to_nat s)) = Some (s :: rest).
Proof. intros H. now apply (opens_suffix prog i _ [] s rest H). Qed.

(** ** One turn of the dispatch loop keeps the invariant *)

Lemma Inv_trace (p : Processor) (t : list TraceLine) :
  Inv p -> Inv (set_stderr p t).
Proof. intros [H1 H2 H3 H4]. now constructor. Qed.

(** Past an instruction that is no loop bracket and leaves the control
    part alone. *)
Lemma Inv_advance (p q : Processor) (c : byte) :
  Inv p ->
  instructionPointer p < len (instructionBuffer p) ->
  instructionBuffer p !! Z.to_nat (instructionPointer p) = Some c ->
  Byte.eqb c InstLoopStart = false ->
  Byte.eqb c InstLoopEnd = false ->
  tape_ok q -> same_control p q ->
  Inv (set_instructionPointer q (instructionPointer q + 1)).
Proof.
  intros [Hcur Hcells Hip (frames & r & Hcl & Hop)] Hlt Hc Hs He
         [Hcur' Hcells'] (Ecl & Eip & Ebuf & _).
  constructor; simpl; try assumption.
  - rewrite Eip, Ebuf. lia.
  - exists frames, r. rewrite Ecl, Eip, Ebuf. split; [assumption|].
    replace (Z.to_nat (instructionPointer p + 1))
      with (S (Z.to_nat (instructionPointer p))) by lia.
    rewrite opens_S, Hop, Hc, Hs, He. reflexivity.
Qed.

Ltac byte_case i c :=
  let E := fresh "E" in
  destruct (Byte.eqb i c) eqn:E;
  [apply Byte.byte_dec_bl in E; subst i|].

Lemma tape_turn (h : Processor -> Result) (p : Processor) (c : byte)
      (t : list TraceLine) :
  tape_handler h ->
  Inv p ->
  instructionPointer p < len (instructionBuffer p) ->
  instructionBuffer p !! Z.to_nat (instructionPointer p) = Some c ->
  Byte.eqb c InstLoopStart = false ->
  Byte.eqb c InstLoopEnd = false ->
  turn_ok p
    match h (set_stderr p t) with
    | Abort e q => Abort e q
    | Ok p2 =>
      Ok (set_instructionPointer p2 (instructionPointer p2 + 1))
    end.
Proof.
  intros Hh HI Hlt Hc Hs He.
  pose proof (Inv_trace p t HI) as HI1.
  assert (Hne : closures (set_stderr p t) <> []).
  { destruct HI as [_ _ _ (frames & r & Hcl & _)]. simpl. rewrite Hcl.
    now destruct frames. }
  specialize (Hh (set_stderr p t)
                 (conj (inv_cursor _ HI1) (inv_cells _ HI1)) Hne).
  destruct (h (set_stderr p t)) as [q|e q]; simpl.
  - destruct Hh as [Hok Hsame]. split.
    + eapply (Inv_advance (set_stderr p t)); eauto.
    + destruct Hsame as (_ & _ & Ebuf & Edbg). split; assumption.
  - destruct Hh as [Herr ->]. split; [eauto|].
    destruct Herr as [-> | ->]; auto.
Qed.

Ltac tape_case Hh :=
  eapply (tape_turn _ _ _ _ Hh); first [eassumption | reflexivity].

Lemma iteration_Inv (p : Processor) :
  Inv p ->
  instructionPointer p < len (instructionBuffer p) ->
  turn_ok p (iteration p).
Proof.
  intros HI Hlt.
  pose proof HI as [Hcur Hcells Hip (frames & r & Hcl & Hop)].
  destruct (at_index_in_range (instructionBuffer p) (instructionPointer p)
              ltac:(lia)) as [c Hc].
  destruct (at_index_in_range (Data p) (DataPointer p) Hcur) as [v Hv].
  destruct (trace_defined c p v Hv) as [p1 Htr].
  destruct (trace_Ok _ _ _ Htr) as [t ->].
  unfold iteration. rewrite Hc, Htr.
  assert (Hc' : instructionBuffer p !! Z.to_nat (instructionPointer p) = Some c).
  { unfold at_index in Hc. now destruct (decide (0 <= instructionPointer p)). }
  assert (Hnat : Z.to_nat (instructionPointer p + 1)
                 = S (Z.to_nat (instructionPointer p))) by lia.
  unfold dispatch.
  byte_case c InstMoveRight; [tape_case MoveRight_tape|].
  byte_case c InstMoveLeft; [tape_case MoveLeft_tape|].
  byte_case c InstDecrement; [tape_case Decrement_tape|].
  byte_case c InstIncrement; [tape_case Increment_tape|].
  byte_case c InstInput; [tape_case Input_tape|].
  byte_case c InstOutput; [tape_case Output_tape|].
  byte_case c InstLoopStart.
  - (* loop start: one more closure, one more open loop *)
    unfold StartLoop, Current. simpl. rewrite Hv. simpl.
    split; [|now split].
    constructor; simpl; try assumption; [lia|].
    exists (mkClosure (v =? 0) false (instructionPointer p) :: frames), r.
    rewrite Hcl. split; [reflexivity|].
    rewrite Hnat, opens_S, Hop, Hc'. simpl.
    now rewrite Z2Nat.id by lia.
  - byte_case c InstLoopEnd.
    + (* loop end *)
      unfold EndLoop, Current. simpl. rewrite Hcl.
      destruct frames as [|f fs].
      * simpl. split; [eauto|]. right. right. split; [reflexivity|].
        rewrite Hop, Hc'. reflexivity.
      * assert (Hlen : (len ((f :: fs) ++ [r]) <=? 1) = false).
        { apply Z.leb_gt. rewrite len_app, !len_cons.
          pose proof (len_nonneg fs). unfold len at 2. simpl. lia. }
        rewrite Hlen. simpl.
        assert (Hpop : Inv (set_instructionPointer
                              (set_closures (set_stderr p t) (fs ++ [r]))
                              (instructionPointer p + 1))).
        { constructor; simpl; try assumption; [lia|].
          exists fs, r. split; [reflexivity|].
          rewrite Hnat, opens_S, Hop, Hc'. reflexivity. }
        destruct (Skip f); simpl; [now split|].
        rewrite Hv. destruct (0 <? v); simpl; [|now split].
        (* back to the instruction after the loop start *)
        simpl in Hop. destruct (opens_top _ _ _ _ Hop) as [Hs Hback].
        split; [|now split].
        constructor; simpl; try assumption; [lia|].
        exists (f :: fs), r. split; [assumption|].
        replace (Z.to_nat (Start f + 1)) with (S (Z.to_nat (Start f))) by lia.
        exact Hback.
    + (* any other byte *)
      simpl. split; [|now split].
      apply (Inv_advance p (set_stderr p t) c); try assumption.
      * now split.
      * now repeat split.
Qed.

(** ** Runs of the dispatch loop *)

Lemma Inv_boot (debug : bool) (input osStdin : list byte) :
  Inv (boot debug input osStdin).
Proof.
  constructor; simpl.
  - unfold valid_cursor. simpl. rewrite len_make; unfold DefaultPageSize; lia.
  - apply Forall_make. lia.
  - pose proof (len_nonneg input). lia.
  - exists [], (mkClosure false true 0). split; reflexivity.
Qed.

Lemma Execute_unfold (fuel : nat) (p : Processor) :
  Execute fuel p =
  if instructionPointer p <? len (instructionBuffer p) then
    match fuel with
    | O => Running p
    | S fuel' =>
      match iteration p with
      | Ok p' => Execute fuel' p'
      | Abort e q => Failed e q
      end
    end
  else Done p.
Proof. destruct fuel; reflexivity. Qed.

Lemma Execute_Inv (fuel : nat) :
  forall p, Inv p -> run_ok p (Execute fuel p).
Proof.
  induction fuel as [|fuel IH]; intros p HI; rewrite Execute_unfold;
    destruct (instructionPointer p <? len (instructionBuffer p)) eqn:Hlt.
  - apply Z.ltb_lt in Hlt. split; [exact HI|split; [reflexivity|exact Hlt]].
  - apply Z.ltb_ge in Hlt. pose proof (inv_ip _ HI).
    split; [exact HI|split; [reflexivity|simpl; lia]].
  - apply Z.ltb_lt in Hlt.
    pose proof (iteration_Inv p HI Hlt) as Ht.
    destruct (iteration p) as [q|e q]; simpl in Ht.
    + destruct Ht as (HIq & Ebuf & _).
      specialize (IH q HIq). unfold run_ok in *. rewrite Ebuf in IH. exact IH.
    + destruct Ht as ([t ->] & Herr). split; [|split].
      * simpl. now apply Inv_trace.
      * reflexivity.
      * destruct Herr as [He | [He | [He Hnone]]]; auto.
        right. right. split; [assumption|].
        exists (Z.to_nat (instructionPointer p)). split; [|assumption].
        pose proof (inv_ip _ HI). unfold len in Hlt. lia.
  - apply Z.ltb_ge in Hlt. pose proof (inv_ip _ HI).
    split; [exact HI|split; [reflexivity|simpl; lia]].
Qed.

Lemma iteration_dispatch (p : Processor) (c : byte) (v : Z) :
  at_index (instructionBuffer p) (instructionPointer p) = Some c ->
  Current p = Some v ->
  exists t,
    iteration p =
    match dispatch c (set_stderr p t) with
    | Abort e q => Abort e q
    | Ok p2 => Ok (set_instructionPointer p2 (instructionPointer p2 + 1))
    end.
Proof.
  intros Hc Hv. destruct (trace_defined c p v Hv) as [p1 Htr].
  destruct (trace_Ok _ _ _ Htr) as [t ->].
  exists t. unfold iteration. now rewrite Hc, Htr.
Qed.

Lemma fetch_drop (p : Processor) (c : byte) (l : list byte) :
  0 <= instructionPointer p ->
  drop (Z.to_nat (instructionPointer p)) (instructionBuffer p) = c :: l ->
  at_index (instructionBuffer p) (instructionPointer p) = Some c /\
  instructionPointer p < len (instructionBuffer p) /\
  drop (Z.to_nat (instructionPointer p + 1)) (instructionBuffer p) = l.
Proof.
  intros H0 Hd. destruct (drop_head _ _ _ _ Hd) as [Hc Hl].
  assert (Hat : at_index (instructionBuffer p) (instructionPointer p) = Some c).
  { unfold at_index. now destruct (decide (0 <= instructionPointer p)). }
  split; [exact Hat|]. split; [apply (at_index_Some _ _ _ Hat)|].
  now replace (Z.to_nat (instructionPointer p + 1))
    with (S (Z.to_nat (instructionPointer p))) by lia.
Qed.

Lemma drop_nil_len (p : Processor) :
  0 <= instructionPointer p ->
  drop (Z.to_nat (instructionPointer p)) (instructionBuffer p) = [] ->
  len (instructionBuffer p) <= instructionPointer p.
Proof.
  intros H0 Hd. apply (f_equal length) in Hd.
  rewrite length_drop in Hd. simpl in Hd. unfold len. lia.
Qed.

Lemma Execute_Done (fuel : nat) (p : Processor) :
  len (instructionBuffer p) <= instructionPointer p ->
  Execute fuel p = Done p.
Proof.
  intros H. rewrite Execute_unfold. apply Z.ltb_ge in H. now rewrite H.
Qed.

Lemma Execute_turn (fuel : nat) (p q : Processor) :
  instructionPointer p < len (instructionBuffer p) ->
  iteration p = Ok q ->
  Execute (S fuel) p = Execute fuel q.
Proof.
  intros H Hq. rewrite Execute_unfold. apply Z.ltb_lt in H.
  now rewrite H, Hq.
Qed.

Lemma Execute_0 (p : Processor) :
  instructionPointer p < len (instructionBuffer p) ->
  Execute 0 p = Running p.
Proof.
  intros H. rewrite Execute_unfold. apply Z.ltb_lt in H. now rewrite H.
Qed.

(** ** Cell arithmetic *)

Lemma count_cons (c x : byte) (l : list byte) :
  count c (x :: l) = (if Byte.eqb c x then 1 else 0) + count c l.
Proof.
  unfold count. simpl. destruct (Byte.eqb c x); [|lia].
  now rewrite len_cons.
Qed.

Lemma plus_minus_run (ops : list byte) :
  forall (p : Processor) (v : Z),
    Forall (fun c => c = InstIncrement \/ c = InstDecrement) ops ->
    topSkip p = Some false ->
    Current p = Some v ->
    0 <= v < 256 ->
    0 <= instructionPointer p ->
    drop (Z.to_nat (instructionPointer p)) (instructionBuffer p) = ops ->
    exists q,
      Execute (length ops) p = Done q /\
      Current q
      = Some ((v + count InstIncrement ops - count InstDecrement ops)
                mod 256) /\
      DataPointer q = DataPointer p /\
      (forall j, j <> DataPointer p ->
                 at_index (Data q) j = at_index (Data p) j).
Proof.
  induction ops as [|c ops IH]; intros p v Hops Hskip Hv Hrange Hip Hdrop.
  - exists p. split; [apply Execute_Done; now apply drop_nil_len|].
    split; [|now split].
    rewrite Hv. f_equal. unfold count. simpl. unfold len. simpl.
    rewrite Z.add_0_r, Z.sub_0_r. now rewrite Z.mod_small.
  - inversion Hops as [|? ? Hc Hops']. subst.
    destruct (fetch_drop _ _ _ Hip Hdrop) as (Hfetch & Hlt & Hrest).
    destruct (iteration_dispatch _ _ _ Hfetch Hv) as [t Hit].
    pose proof (at_index_Some _ _ _ Hv) as Hcur.
    assert (Hstep : exists v',
      0 <= v' < 256 /\
      (v' + count InstIncrement ops - count InstDecrement ops) mod 256
      = (v + count InstIncrement (c :: ops) - count InstDecrement (c :: ops))
          mod 256 /\
      iteration p
      = Ok (set_instructionPointer
              (set_Data (set_stderr p t)
                 (store (Data p) (DataPointer p) v'))
              (instructionPointer p + 1))).
    { destruct Hc as [-> | ->].
      - exists ((v + 1) mod 256).
        split; [apply Z.mod_pos_bound; lia|]. split.
        + rewrite !count_cons. simpl.
          rewrite <- Z.add_sub_assoc, Zplus_mod_idemp_l. f_equal. lia.
        + rewrite Hit.
          change (dispatch InstIncrement (set_stderr p t))
            with (Increment (set_stderr p t)).
          unfold Increment, topSkip, Current. simpl.
          unfold topSkip in Hskip. unfold Current in Hv.
          now rewrite Hskip, Hv.
      - exists ((v - 1) mod 256).
        split; [apply Z.mod_pos_bound; lia|]. split.
        + rewrite !count_cons. simpl.
          rewrite <- Z.add_sub_assoc, Zplus_mod_idemp_l. f_equal. lia.
        + rewrite Hit.
          change (dispatch InstDecrement (set_stderr p t))
            with (Decrement (set_stderr p t)).
          unfold Decrement, topSkip, Current. simpl.
          unfold topSkip in Hskip. unfold Current in Hv.
          now rewrite Hskip, Hv. }
    destruct Hstep as (v' & Hv' & Hsum & Hiter).
    set (q := set_instructionPointer
                (set_Data (set_stderr p t) (store (Data p) (DataPointer p) v'))
                (instructionPointer p + 1)) in *.
    destruct (IH q v' Hops') as (q' & Hrun & Hval & Hdp & Hothers).
    + exact Hskip.
    + unfold Current. simpl. now apply at_index_store_eq.
    + exact Hv'.
    + simpl. lia.
    + exact Hrest.
    + exists q'. split; [|split; [|split]].
      * simpl length. now rewrite (Execute_turn _ _ _ Hlt Hiter).
      * now rewrite Hval, Hsum.
      * exact Hdp.
      * intros j Hj. rewrite (Hothers j Hj). simpl.
        apply at_index_store_ne; [lia|congruence].
Qed.

(** C7. A run of increments and decrements that are not skipped, on a
    cell that holds [v], leaves the cursor where it was, the other cells
    as they were, and in the cell [v] plus the number of increments minus
    the number of decrements, modulo 256.  An increment of 255 gives 0
    and a decrement of 0 gives 255; neither ends the run. *)
Theorem plus_minus_wraps (p : Processor) (ops : list byte) (v : Z) :
  Forall (fun c => c = InstIncrement \/ c = InstDecrement) ops ->
  topSkip p = Some false ->
  Current p = Some v ->
  0 <= v < 256 ->
  (exists q,
     Execute (length ops) (Load p ops) = Done q /\
     Current q
     = Some ((v + count InstIncrement ops - count InstDecrement ops)
               mod 256) /\
     DataPointer q = DataPointer p /\
     (forall j, j <> DataPointer p ->
                at_index (Data q) j = at_index (Data p) j)) /\
  (v = 255 ->
     exists q, dispatch InstIncrement p = Ok q /\ Current q = Some 0) /\
  (v = 0 ->
     exists q, dispatch InstDecrement p = Ok q /\ Current q = Some 255).
Proof.
  intros Hops Hskip Hv Hrange.
  pose proof (at_index_Some _ _ _ Hv) as Hcur.
  split; [|split].
  - apply (plus_minus_run ops (Load p ops) v); try assumption.
    + simpl. lia.
    + reflexivity.
  - intros ->.
    change (dispatch InstIncrement p) with (Increment p).
    unfold Increment. rewrite Hskip, Hv. eexists. split; [reflexivity|].
    unfold Current. simpl. now apply at_index_store_eq.
  - intros ->.
    change (dispatch InstDecrement p) with (Decrement p).
    unfold Decrement. rewrite Hskip, Hv. eexists. split; [reflexivity|].
    unfold Current. simpl. now apply at_index_store_eq.
Qed.

(** ** The cursor *)

Lemma move_valid (p q : Processor) :
  valid_cursor p ->
  dispatch InstMoveRight p = Ok q \/ dispatch InstMoveLeft p = Ok q ->
  valid_cursor q.
Proof.
  intros Hc.
  change (dispatch InstMoveRight p) with (MoveRight p).
  change (dispatch InstMoveLeft p) with (MoveLeft p).
  unfold MoveRight, MoveLeft.
  destruct (topSkip p) as [[|]|]; intros [H|H]; try discriminate;
    try (inversion H; subst; assumption).
  - inversion H. apply ensureDataSize_valid. simpl.
    unfold valid_cursor in Hc. lia.
  - destruct (DataPointer p =? 0) eqn:E; [discriminate|].
    apply Z.eqb_neq in E. inversion H.
    unfold valid_cursor in *. simpl. lia.
Qed.

Lemma move_right_run (n : nat) :
  forall p,
    topSkip p = Some false ->
    valid_cursor p ->
    0 <= instructionPointer p ->
    drop (Z.to_nat (instructionPointer p)) (instructionBuffer p)
    = repeat InstMoveRight n ->
    exists q,
      Execute n p = Done q /\
      DataPointer q = DataPointer p + Z.of_nat n /\
      valid_cursor q.
Proof.
  induction n as [|n IH]; intros p Hskip Hcur Hip Hdrop.
  - exists p. split; [apply Execute_Done; now apply drop_nil_len|].
    split; [lia|assumption].
  - simpl in Hdrop.
    destruct (fetch_drop _ _ _ Hip Hdrop) as (Hfetch & Hlt & Hrest).
    destruct (at_index_in_range _ _ Hcur) as [v Hv].
    destruct (iteration_dispatch _ _ _ Hfetch Hv) as [t Hit].
    change (dispatch InstMoveRight (set_stderr p t))
      with (MoveRight (set_stderr p t)) in Hit.
    unfold MoveRight in Hit. unfold topSkip in Hskip, Hit. simpl in Hit.
    rewrite Hskip in Hit.
    set (q0 := set_DataPointer (set_stderr p t) (DataPointer p + 1)) in *.
    destruct (ensureDataSize_fields q0) as (Fdp & Fcl & Fip & Fbuf & _).
    destruct (IH (set_instructionPointer (ensureDataSize q0)
                    (instructionPointer (ensureDataSize q0) + 1)))
      as (q & Hrun & Hdp & Hval).
    + unfold topSkip. simpl. rewrite Fcl. exact Hskip.
    + unfold valid_cursor. simpl. apply ensureDataSize_valid.
      simpl. unfold valid_cursor in Hcur. lia.
    + simpl. rewrite Fip. simpl. lia.
    + simpl. rewrite Fip, Fbuf. exact Hrest.
    + exists q. split; [now rewrite (Execute_turn _ _ _ Hlt Hit)|].
      split; [|assumption].
      rewrite Hdp. simpl. rewrite Fdp. simpl. lia.
Qed.

(** C6. In every state of every run, whatever the program and the input,
    the cursor indexes a cell of the tape, and no run ends in an
    index-out-of-range panic.  Each move keeps the cursor valid on its
    own.  Any number [n] of moves to the right runs to the end with the
    cursor at [n], a valid index. *)
Theorem cursor_always_valid (debug : bool) (input osStdin : list byte)
        (fuel : nat) :
  valid_cursor (state_of (Execute fuel (boot debug input osStdin))) /\
  (forall q, Execute fuel (boot debug input osStdin) <> Failed RuntimePanic q) /\
  (forall p q,
     valid_cursor p ->
     dispatch InstMoveRight p = Ok q \/ dispatch InstMoveLeft p = Ok q ->
     valid_cursor q) /\
  (forall n, exists q,
     Execute n (boot debug (repeat InstMoveRight n) osStdin) = Done q /\
     DataPointer q = Z.of_nat n /\
     0 <= DataPointer q < len (Data q)).
Proof.
  pose proof (Execute_Inv fuel _ (Inv_boot debug input osStdin))
    as (HI & _ & Hend).
  split; [apply (inv_cursor _ HI)|]. split; [|split].
  - intros q Hq. rewrite Hq in Hend.
    destruct Hend as [H | [H | [H _]]]; discriminate.
  - exact move_valid.
  - intros n.
    destruct (move_right_run n (boot debug (repeat InstMoveRight n) osStdin))
      as (q & Hrun & Hdp & Hval).
    + reflexivity.
    + apply (inv_cursor _ (Inv_boot _ _ _)).
    + simpl. lia.
    + reflexivity.
    + exists q. split; [assumption|]. split; [|exact Hval].
      rewrite Hdp. simpl. lia.
Qed.

(** When the tape grows, its new length is one more than a multiple of
    the page size, and it exceeds the cursor. *)
Lemma ensureDataSize_grow_length (p : Processor) :
  0 <= DataPointer p ->
  len (Data p) <= DataPointer p ->
  len (Data (ensureDataSize p)) mod DefaultPageSize = 1 /\
  DataPointer (ensureDataSize p) < len (Data (ensureDataSize p)).
Proof.
  intros H0 Hle. split.
  - rewrite ensureDataSize_grow by assumption.
    unfold DefaultPageSize. rewrite Z.add_comm, Z_mod_plus_full. reflexivity.
  - apply (ensureDataSize_valid p H0).
Qed.

(** C3. After 1024 moves to the right from a fresh processor the tape
    has grown once, to 2049 cells: the length exceeds the cursor, and it
    is one more than a multiple of the page size, not a multiple of it. *)
Theorem tape_growth_off_page :
  exists q,
    Execute 1024 (boot false (repeat InstMoveRight 1024) []) = Done q /\
    DataPointer q = 1024 /\
    len (Data q) = 2049 /\
    DataPointer q < len (Data q) /\
    len (Data q) mod DefaultPageSize = 1.
Proof.
  eexists. split; [vm_compute; reflexivity|].
  repeat split.
Qed.

(** ** The end of a run *)

(** When the dispatch loop is left, the closure stack holds the root and
    one closure for each loop start of the program that no loop end
    closes. *)
Lemma Done_stack (fuel : nat) (debug : bool) (input osStdin : list byte)
      (q : Processor) :
  Execute fuel (boot debug input osStdin) = Done q ->
  exists frames r,
    closures q = frames ++ [r] /\
    opens input (length input) = Some (map Start frames).
Proof.
  intros Hrun.
  pose proof (Execute_Inv fuel _ (Inv_boot debug input osStdin))
    as (HI & Hbuf & Hend).
  rewrite Hrun in HI, Hbuf, Hend. simpl in HI, Hbuf, Hend.
  destruct (inv_stack _ HI) as (frames & r & Hcl & Hop).
  exists frames, r. split; [assumption|].
  rewrite Hbuf, Hend in Hop. simpl in Hop. unfold len in Hop.
  now rewrite Nat2Z.id in Hop.
Qed.

Lemma main_unfold (fuel : nat) (debug : bool) (input osStdin : list byte) :
  main fuel debug input osStdin =
  match Execute fuel (boot debug input osStdin) with
  | Done q =>
    match ExpectEnd q with
    | Ok q' => Done q'
    | Abort e q' => Failed e q'
    end
  | o => o
  end.
Proof. reflexivity. Qed.

(** The revision with the flags: when the dispatch loop has run to the
    end of the instruction buffer, its [main] calls [ExpectEnd]; the run
    fails with [UnterminatedLoopError] exactly when the closure stack
    holds more than the root closure, which is exactly when loop starts
    of the program are left unmatched, and it ends normally otherwise.
    The program [[] fails with [UnterminatedLoopError]. *)
Theorem ExpectEnd_after_Execute (fuel : nat) (debug : bool)
        (input osStdin : list byte) (q : Processor) :
  Execute fuel (boot debug input osStdin) = Done q ->
  (exists unmatched,
     opens input (length input) = Some unmatched /\
     len (closures q) = 1 + len unmatched) /\
  (main fuel debug input osStdin = Failed UnterminatedLoopError q
   <-> 1 < len (closures q)) /\
  (main fuel debug input osStdin = Done q <-> len (closures q) <= 1) /\
  (exists q', main 1 debug (program "[") osStdin
              = Failed UnterminatedLoopError q').
Proof.
  intros Hrun.
  destruct (Done_stack _ _ _ _ _ Hrun) as (frames & r & Hcl & Hop).
  split; [|split; [|split]].
  - exists (map Start frames). split; [assumption|].
    rewrite Hcl, len_app. unfold len. rewrite length_map. simpl. lia.
  - rewrite main_unfold, Hrun. unfold ExpectEnd.
    destruct (1 <? len (closures q)) eqn:E.
    + apply Z.ltb_lt in E. now split.
    + apply Z.ltb_ge in E. split; [discriminate|lia].
  - rewrite main_unfold, Hrun. unfold ExpectEnd.
    destruct (1 <? len (closures q)) eqn:E.
    + apply Z.ltb_lt in E. split; [discriminate|lia].
    + apply Z.ltb_ge in E. now split.
  - destruct debug; eexists; vm_compute; reflexivity.
Qed.

(** C4. [main] of src/main.go defines [ExpectEnd] and never calls it.
    On the program [[] its run reaches the end of the instruction buffer
    and ends normally, with the closure of the unmatched loop start still
    on the stack, in a state where [ExpectEnd] fails and where [main] of
    the revision with the flags does fail with [UnterminatedLoopError];
    and no run of it, on any program and input, ever fails with
    [UnterminatedLoopError]. *)
Theorem main_go_omits_ExpectEnd :
  (exists q,
     main_plain 1 (program "[") [] = Done q /\
     1 < len (closures q) /\
     opens (program "[") (length (program "[")) = Some [0] /\
     ExpectEnd q = Abort UnterminatedLoopError q /\
     main 1 false (program "[") [] = Failed UnterminatedLoopError q) /\
  (forall fuel input osStdin q,
     main_plain fuel input osStdin <> Failed UnterminatedLoopError q).
Proof.
  split.
  - eexists. split; [vm_compute; reflexivity|].
    split; [reflexivity|]. split; [reflexivity|].
    split; [reflexivity|vm_compute; reflexivity].
  - intros fuel input osStdin q.
    change (main_plain fuel input osStdin)
      with (Execute fuel (boot false input osStdin)).
    intros Hrun.
    pose proof (Execute_Inv fuel _ (Inv_boot false input osStdin))
      as (_ & _ & Hend).
    rewrite Hrun in Hend.
    destruct Hend as [H | [H | [H _]]]; discriminate.
Qed.

(** C5 (as stated, refuted). The program [+[]] is balanced, and its run
    never leaves the dispatch loop: whatever the fuel, it is still
    running. *)
Lemma balanced_program_runs_forever :
  Balanced (program "+[]") /\
  forall fuel, exists q,
    main fuel false (program "+[]") [] = Running q /\
    Execute fuel (boot false (program "+[]") []) = Running q.
Proof.
  split; [reflexivity|].
  pose (s0 := boot false (program "+[]") []).
  pose (s1 := state_of (Execute 1 s0)).
  pose (s2 := state_of (Execute 2 s0)).
  assert (H0 : iteration s0 = Ok s1) by (vm_compute; reflexivity).
  assert (H1 : iteration s1 = Ok s2) by (vm_compute; reflexivity).
  assert (H2 : iteration s2 = Ok s2) by (vm_compute; reflexivity).
  assert (L0 : instructionPointer s0 < len (instructionBuffer s0))
    by (vm_compute; reflexivity).
  assert (L1 : instructionPointer s1 < len (instructionBuffer s1))
    by (vm_compute; reflexivity).
  assert (L2 : instructionPointer s2 < len (instructionBuffer s2))
    by (vm_compute; reflexivity).
  assert (Hloop : forall n, Execute n s2 = Running s2).
  { induction n as [|n IH].
    - rewrite Execute_unfold. apply Z.ltb_lt in L2. now rewrite L2.
    - now rewrite (Execute_turn _ _ _ L2 H2). }
  assert (Hall : forall fuel, exists q, Execute fuel s0 = Running q).
  { intros [|[|n]].
    - exists s0. rewrite Execute_unfold. apply Z.ltb_lt in L0. now rewrite L0.
    - exists s1. rewrite (Execute_turn _ _ _ L0 H0), Execute_unfold.
      apply Z.ltb_lt in L1. now rewrite L1.
    - exists s2.
      now rewrite (Execute_turn _ _ _ L0 H0), (Execute_turn _ _ _ L1 H1). }
  intros fuel. destruct (Hall fuel) as [q Hq]. exists q.
  rewrite main_unfold. fold s0. now rewrite Hq.
Qed.

(** C5 (amended). A run of a balanced program never fails with
    [UnbalancedLoopError] or [UnterminatedLoopError], and when its
    dispatch loop reaches the end of the instruction buffer only the root
    closure is on the stack, so [ExpectEnd] passes and [main] ends
    normally. *)
Theorem balanced_run_ends_clean (fuel : nat) (debug : bool)
        (input osStdin : list byte) :
  Balanced input ->
  (forall q, main fuel debug input osStdin <> Failed UnbalancedLoopError q) /\
  (forall q, main fuel debug input osStdin
             <> Failed UnterminatedLoopError q) /\
  (forall q, Execute fuel (boot debug input osStdin) = Done q ->
             len (closures q) = 1 /\
             ExpectEnd q = Ok q /\
             main fuel debug input osStdin = Done q).
Proof.
  intros Hbal.
  assert (Hdone : forall q,
            Execute fuel (boot debug input osStdin) = Done q ->
            len (closures q) = 1 /\ ExpectEnd q = Ok q).
  { intros q Hrun.
    destruct (Done_stack _ _ _ _ _ Hrun) as (frames & r & Hcl & Hop).
    rewrite Hbal in Hop. inversion Hop as [E].
    destruct frames; [|discriminate].
    unfold ExpectEnd. rewrite Hcl. now split. }
  pose proof (Execute_Inv fuel _ (Inv_boot debug input osStdin))
    as (_ & _ & Hend).
  split; [|split].
  - intros q. rewrite main_unfold.
    destruct (Execute fuel (boot debug input osStdin)) as [q'|e q'|q']
      eqn:Hrun; [| |discriminate].
    + destruct (Hdone q' eq_refl) as [_ ->]. discriminate.
    + intros H. inversion H. subst.
      destruct Hend as [H1 | [H1 | [_ (j & Hj & Hnone)]]]; try discriminate.
      change (instructionBuffer (boot debug input osStdin)) with input
        in Hj, Hnone.
      destruct (opens_le input (length input) (S j) [] Hbal ltac:(lia))
        as [stk Hstk].
      congruence.
  - intros q. rewrite main_unfold.
    destruct (Execute fuel (boot debug input osStdin)) as [q'|e q'|q']
      eqn:Hrun; [| |discriminate].
    + destruct (Hdone q' eq_refl) as [_ ->]. discriminate.
    + intros H. inversion H. subst.
      destruct Hend as [H1 | [H1 | [H1 _]]]; discriminate.
  - intros q Hrun. destruct (Hdone q Hrun) as [Hlen Hok].
    split; [assumption|]. split; [assumption|].
    now rewrite main_unfold, Hrun, Hok.
Qed.

(** ** Skipped loops *)

Lemma frozen_refl (p : Processor) : frozen p p.
Proof. now repeat split. Qed.

Lemma frozen_trans (p q r : Processor) :
  frozen p q -> frozen q r -> frozen p r.
Proof.
  unfold frozen. intros (A1 & A2 & A3 & A4 & A5 & A6)
                        (B1 & B2 & B3 & B4 & B5 & B6).
  repeat split; congruence.
Qed.

(** Under a skipping closure every instruction but the loop brackets is
    without effect. *)
Lemma dispatch_skipped (c : byte) (p : Processor) :
  topSkip p = Some true ->
  Byte.eqb c InstLoopStart = false ->
  Byte.eqb c InstLoopEnd = false ->
  dispatch c p = Ok p.
Proof.
  intros Hskip Hs He. unfold dispatch. rewrite Hs, He.
  unfold MoveRight, MoveLeft, Decrement, Increment, Input, Output.
  rewrite Hskip.
  repeat match goal with
         | |- context [if ?b then _ else _] => destruct b
         end; reflexivity.
Qed.

(** One turn of the dispatch loop under a skipping closure [s], on a zero
    cell: only the closure stack and the instruction pointer change. *)
Lemma skipped_turn (p : Processor) (c : byte) (s : Closure)
      (rest : list Closure) :
  at_index (instructionBuffer p) (instructionPointer p) = Some c ->
  Current p = Some 0 ->
  closures p = s :: rest ->
  Skip s = true ->
  rest <> [] ->
  exists t,
    iteration p =
    Ok (set_instructionPointer
          (set_closures (set_stderr p t)
             (if Byte.eqb c InstLoopEnd then rest
              else if Byte.eqb c InstLoopStart
                   then mkClosure true false (instructionPointer p)
                          :: s :: rest
                   else s :: rest))
          (instructionPointer p + 1)).
Proof.
  intros Hc Hv Hcl Hs Hrest.
  destruct (iteration_dispatch _ _ _ Hc Hv) as [t Hit].
  exists t. rewrite Hit. clear Hit.
  destruct (Byte.eqb c InstLoopEnd) eqn:Eend.
  - apply Byte.byte_dec_bl in Eend. subst c.
    change (dispatch InstLoopEnd (set_stderr p t))
      with (EndLoop (set_stderr p t)).
    unfold EndLoop. simpl. rewrite Hcl.
    assert (Hlen : (len (s :: rest) <=? 1) = false).
    { apply Z.leb_gt. rewrite len_cons. destruct rest; [easy|].
      rewrite len_cons. pose proof (len_nonneg rest). lia. }
    now rewrite Hlen, Hs.
  - destruct (Byte.eqb c InstLoopStart) eqn:Estart.
    + apply Byte.byte_dec_bl in Estart. subst c.
      change (dispatch InstLoopStart (set_stderr p t))
        with (StartLoop (set_stderr p t)).
      unfold StartLoop, Current. simpl. unfold Current in Hv.
      now rewrite Hv, Hcl.
    + rewrite dispatch_skipped; try assumption.
      * simpl. rewrite <- Hcl. now destruct p.
      * unfold topSkip. simpl. now rewrite Hcl, Hs.
Qed.

(** The loop end found by [scan] is a loop end. *)
Lemma scan_end (l : list byte) :
  forall d k, scan l d = Some k -> l !! k = Some InstLoopEnd.
Proof.
  induction l as [|c l IH]; intros d k H; [discriminate|].
  simpl in H. destruct (Byte.eqb c InstLoopEnd) eqn:Eend.
  - destruct d as [|d].
    + inversion H. apply Byte.byte_dec_bl in Eend. now subst.
    + destruct (scan l d) as [k'|] eqn:Hk; [|discriminate].
      inversion H. simpl. eauto.
  - destruct (Byte.eqb c InstLoopStart).
    + destruct (scan l (S d)) as [k'|] eqn:Hk; [|discriminate].
      inversion H. simpl. eauto.
    + destruct (scan l d) as [k'|] eqn:Hk; [|discriminate].
      inversion H. simpl. eauto.
Qed.

(** The pass over a skipped region.  [sk] are the skipping closures of
    the loops entered and not yet left, [d] + 1 of them, on top of the
    stack [base]; [k] is the offset of the loop end that closes the
    outermost of them.  Each of the next [k] + 1 turns moves the
    instruction pointer one step on and leaves the tape, the cursor and
    the streams alone; after the last one the stack is [base]. *)
Lemma skip_pass (l : list byte) :
  forall (d k : nat) (p : Processor) (sk base : list Closure),
    scan l d = Some k ->
    0 <= instructionPointer p ->
    drop (Z.to_nat (instructionPointer p)) (instructionBuffer p) = l ->
    Current p = Some 0 ->
    closures p = sk ++ base ->
    length sk = S d ->
    Forall (fun c => Skip c = true) sk ->
    base <> [] ->
    forall m, (m <= S k)%nat ->
      exists q,
        iterate m p = Ok q /\ frozen p q /\
        instructionPointer q = instructionPointer p + Z.of_nat m /\
        (m = S k -> closures q = base).
Proof.
  induction l as [|c l IH];
    intros d k p sk base Hscan Hip Hdrop Hv Hcl Hlen Hsk Hbase m Hm;
    [discriminate|].
  destruct m as [|m].
  { exists p. split; [reflexivity|]. split; [apply frozen_refl|].
    split; [lia|discriminate]. }
  destruct (fetch_drop _ _ _ Hip Hdrop) as (Hfetch & Hlt & Hrest).
  destruct sk as [|s sk]; [discriminate|].
  apply Forall_cons in Hsk as [Hs Hsk'].
  assert (Hrest_ne : sk ++ base <> []) by (destruct sk; easy).
  destruct (skipped_turn p c s (sk ++ base) Hfetch Hv Hcl Hs Hrest_ne)
    as [t Hit].
  simpl iterate. rewrite Hit. clear Hit.
  simpl in Hscan, Hlen.
  set (cl := if Byte.eqb c InstLoopEnd then sk ++ base
             else if Byte.eqb c InstLoopStart
                  then mkClosure true false (instructionPointer p)
                         :: s :: sk ++ base
                  else s :: sk ++ base) in *.
  set (p' := set_instructionPointer (set_closures (set_stderr p t) cl)
               (instructionPointer p + 1)).
  assert (Hfrozen : frozen p p') by now repeat split.
  assert (Hnext : forall d' k' sk',
            scan l d' = Some k' -> k = S k' ->
            cl = sk' ++ base -> length sk' = S d' ->
            Forall (fun c => Skip c = true) sk' ->
            exists q,
              iterate m p' = Ok q /\ frozen p q /\
              instructionPointer q = instructionPointer p + Z.of_nat (S m) /\
              (S m = S k -> closures q = base)).
  { intros d' k' sk' Hscan' Hk Hcl' Hlen' Hsk''.
    destruct (IH d' k' p' sk' base Hscan') with (m := m)
      as (q & Hrun & Hfr & Hipq & Hend); try assumption.
    - simpl. lia.
    - lia.
    - exists q. split; [assumption|].
      split; [now apply (frozen_trans p p' q)|].
      split; [rewrite Hipq; simpl; lia|].
      intros E. apply Hend. lia. }
  subst cl. destruct (Byte.eqb c InstLoopEnd).
  - destruct d as [|d].
    + inversion Hscan. subst k.
      assert (m = 0)%nat by lia. subst m.
      destruct sk; [|discriminate].
      exists p'. split; [reflexivity|]. split; [assumption|].
      split; [simpl; lia|]. intros _. reflexivity.
    + destruct (scan l d) as [k'|] eqn:Hk; [|discriminate].
      inversion Hscan. subst k.
      apply (Hnext d k' sk); auto.
  - destruct (Byte.eqb c InstLoopStart).
    + destruct (scan l (S d)) as [k'|] eqn:Hk; [|discriminate].
      inversion Hscan. subst k.
      apply (Hnext (S d) k'
               (mkClosure true false (instructionPointer p) :: s :: sk));
        auto.
      simpl. lia.
    + destruct (scan l d) as [k'|] eqn:Hk; [|discriminate].
      inversion Hscan. subst k.
      apply (Hnext d k' (s :: sk)); auto.
Qed.

(** C2. A loop start executed on a zero cell, whose matching loop end is
    at [j]: the turns of the dispatch loop from the loop start to the
    matching loop end, both included, each move the instruction pointer
    one step on, so that every instruction of the region, those of nested
    loops too, is passed exactly once; the state after each of them has
    the tape, the cursor, the input stream and the output stream of the
    state at the loop start; and after the last one the instruction
    pointer is [j + 1] and the closure stack is what it was before the
    loop start. *)
Theorem skipped_loop_is_inert (p : Processor) (j : Z) :
  at_index (instructionBuffer p) (instructionPointer p) = Some InstLoopStart ->
  Current p = Some 0 ->
  closures p <> [] ->
  matching (instructionBuffer p) (instructionPointer p) = Some j ->
  instructionPointer p < j /\
  at_index (instructionBuffer p) j = Some InstLoopEnd /\
  forall m, (m <= Z.to_nat (j - instructionPointer p) + 1)%nat ->
    exists q,
      iterate m p = Ok q /\
      frozen p q /\
      instructionPointer q = instructionPointer p + Z.of_nat m /\
      (m = (Z.to_nat (j - instructionPointer p) + 1)%nat ->
       closures q = closures p /\ instructionPointer q = j + 1).
Proof.
  intros Hfetch Hv Hne Hmatch.
  pose proof (at_index_Some _ _ _ Hfetch) as [Hip Hlt].
  unfold matching in Hmatch.
  destruct (scan (drop (S (Z.to_nat (instructionPointer p)))
                   (instructionBuffer p)) 0) as [k|] eqn:Hscan;
    [|discriminate].
  simpl in Hmatch. inversion Hmatch as [Hj]. clear Hmatch.
  split; [lia|]. split.
  - pose proof (scan_end _ _ _ Hscan) as Hend.
    rewrite lookup_drop in Hend.
    unfold at_index.
    destruct (decide (0 <= instructionPointer p + 1 + Z.of_nat k)); [|lia].
    now replace (Z.to_nat (instructionPointer p + 1 + Z.of_nat k))
      with (S (Z.to_nat (instructionPointer p)) + k)%nat by lia.
  - replace (Z.to_nat (instructionPointer p + 1 + Z.of_nat k
                       - instructionPointer p) + 1)%nat
      with (S (S k)) by lia.
    intros [|m] Hm.
    { exists p. split; [reflexivity|]. split; [apply frozen_refl|].
      split; [lia|discriminate]. }
    destruct (iteration_dispatch _ _ _ Hfetch Hv) as [t Hit].
    change (dispatch InstLoopStart (set_stderr p t))
      with (StartLoop (set_stderr p t)) in Hit.
    unfold StartLoop, Current in Hit. simpl in Hit.
    unfold Current in Hv. rewrite Hv in Hit. simpl in Hit.
    set (new := mkClosure true false (instructionPointer p)) in *.
    set (p1 := set_instructionPointer
                 (set_closures (set_stderr p t) (new :: closures p))
                 (instructionPointer p + 1)) in *.
    destruct (skip_pass _ 0 k p1 [new] (closures p) Hscan) with (m := m)
      as (q & Hrun & Hfr & Hipq & Hcl); try easy.
    + simpl. lia.
    + simpl. now replace (Z.to_nat (instructionPointer p + 1))
        with (S (Z.to_nat (instructionPointer p))) by lia.
    + now repeat constructor.
    + lia.
    + exists q. simpl iterate. rewrite Hit.
      split; [assumption|].
      split; [apply (frozen_trans p p1 q); [now repeat split|assumption]|].
      split; [rewrite Hipq; simpl; lia|].
      intros E. split; [apply Hcl; lia|].
      rewrite Hipq. simpl. lia.
Qed.

(** ** The theorems at work on concrete runs *)

(** In [++[-]], the loop end reached with 1 in the cell sends the run
    back to the instruction after the loop start. *)
Lemma EndLoop_cases_witness :
  iteration (state_of (Execute 4 (boot false (program "++[-]") [])))
  = Ok (set_instructionPointer
          (state_of (Execute 4 (boot false (program "++[-]") []))) 3).
Proof.
  pose (p := state_of (Execute 4 (boot false (program "++[-]") []))).
  assert (H1 : at_index (instructionBuffer p) (instructionPointer p)
               = Some InstLoopEnd) by (vm_compute; reflexivity).
  assert (H2 : trace InstLoopEnd p = Ok p) by reflexivity.
  destruct (EndLoop_cases p p H1 H2) as (_ & _ & H).
  destruct (H (mkClosure false false 2) [mkClosure false true 0])
    as (_ & Hjump & _).
  - vm_compute. reflexivity.
  - discriminate.
  - apply (Hjump 1).
    + reflexivity.
    + vm_compute. reflexivity.
    + lia.
Defined.

(** The loop of [[+[-]>.]+] is skipped on the fresh tape: eight turns
    bring the run past its loop end with nothing touched. *)
Lemma skipped_loop_is_inert_witness :
  exists q,
    iterate 8 (boot false (program "[+[-]>.]+") ["a"%byte]) = Ok q /\
    frozen (boot false (program "[+[-]>.]+") ["a"%byte]) q /\
    instructionPointer q = 8 /\
    len (closures q) = 1.
Proof.
  pose (p := boot false (program "[+[-]>.]+") ["a"%byte]).
  destruct (skipped_loop_is_inert p 7) as (_ & _ & H).
  - vm_compute. reflexivity.
  - vm_compute. reflexivity.
  - discriminate.
  - vm_compute. reflexivity.
  - destruct (H 8%nat) as (q & Hrun & Hfr & Hip & Hend).
    + vm_compute. lia.
    + exists q. split; [exact Hrun|]. split; [exact Hfr|].
      destruct Hend as [Hcl Hj]; [vm_compute; reflexivity|].
      split; [exact Hj|]. rewrite Hcl. reflexivity.
Defined.

Lemma ExpectEnd_after_Execute_witness :
  main 2 false (program "[[") []
  = Failed UnterminatedLoopError
      (state_of (Execute 2 (boot false (program "[[") []))).
Proof.
  pose (q := state_of (Execute 2 (boot false (program "[[") []))).
  assert (Hrun : Execute 2 (boot false (program "[[") []) = Done q)
    by (vm_compute; reflexivity).
  destruct (ExpectEnd_after_Execute 2 false (program "[[") [] q Hrun)
    as (_ & Hfail & _).
  apply Hfail. vm_compute. reflexivity.
Defined.

Lemma balanced_run_ends_clean_witness :
  main 20 false (program "++[>+<-]") []
  = Done (state_of (Execute 20 (boot false (program "++[>+<-]") []))).
Proof.
  assert (Hbal : Balanced (program "++[>+<-]")) by reflexivity.
  destruct (balanced_run_ends_clean 20 false (program "++[>+<-]") [] Hbal)
    as (_ & _ & H).
  destruct (H (state_of (Execute 20 (boot false (program "++[>+<-]") []))))
    as (_ & _ & Hmain).
  - vm_compute. reflexivity.
  - exact Hmain.
Defined.

Lemma plus_minus_wraps_witness :
  exists q,
    Execute 5 (Load (NewProcessor []) (program "--+--")) = Done q /\
    Current q = Some 253.
Proof.
  destruct (plus_minus_wraps (NewProcessor []) (program "--+--") 0)
    as ((q & Hrun & Hval & _) & _).
  - repeat (constructor; [first [now left | now right]|]). constructor.
  - reflexivity.
  - reflexivity.
  - lia.
  - exists q. split; [exact Hrun|exact Hval].
Defined.

Lemma MoveLeft_cases_witness :
  dispatch InstMoveLeft (NewProcessor [])
  = Abort OutOfBoundsError (NewProcessor []).
Proof.
  destruct (MoveLeft_cases (NewProcessor [])) as [H _].
  - reflexivity.
  - apply H. reflexivity.
Defined.

(** The cell 255 is written as the two bytes of U+00FF. *)
Lemma Output_code_point_witness :
  dispatch InstOutput (state_of (Execute 1 (boot false (program "-") [])))
  = Ok (set_stdout (state_of (Execute 1 (boot false (program "-") [])))
          [195; 191]).
Proof.
  destruct (Output_code_point
              (state_of (Execute 1 (boot false (program "-") []))) 255)
    as (H & _).
  - reflexivity.
  - vm_compute. reflexivity.
  - lia.
  - exact H.
Defined.

(** * More of the processor *)

(** ** Every turn is a step *)

Lemma dispatch_Step (c : byte) (p p2 : Processor) :
  dispatch c p = Ok p2 ->
  Step p (set_instructionPointer p2 (instructionPointer p2 + 1)).
Proof.
  unfold dispatch.
  byte_case c InstMoveRight.
  { unfold MoveRight. destruct (topSkip p) as [[|]|] eqn:Hs;
      intros H; inversion H; subst; [apply S_noop|].
    destruct (ensureDataSize_fields
                (set_DataPointer p (DataPointer p + 1)))
      as (_ & _ & Fip & _).
    rewrite Fip. exact (S_right p Hs). }
  byte_case c InstMoveLeft.
  { unfold MoveLeft. destruct (topSkip p) as [[|]|] eqn:Hs;
      [intros H; inversion H; subst; apply S_noop| |discriminate].
    destruct (DataPointer p =? 0) eqn:E0; [discriminate|].
    apply Z.eqb_neq in E0. intros H. inversion H. subst. exact (S_left p Hs E0). }
  byte_case c InstDecrement.
  { unfold Decrement. destruct (topSkip p) as [[|]|] eqn:Hs;
      [intros H; inversion H; subst; apply S_noop| |discriminate].
    destruct (Current p) as [v|] eqn:Hv; [|discriminate].
    intros H. inversion H. subst. eapply (S_cell p v); eauto. }
  byte_case c InstIncrement.
  { unfold Increment. destruct (topSkip p) as [[|]|] eqn:Hs;
      [intros H; inversion H; subst; apply S_noop| |discriminate].
    destruct (Current p) as [v|] eqn:Hv; [|discriminate].
    intros H. inversion H. subst. eapply (S_cell p v); eauto. }
  byte_case c InstInput.
  { unfold Input. destruct (topSkip p) as [[|]|] eqn:Hs;
      [intros H; inversion H; subst; apply S_noop| |discriminate].
    destruct (stdin p) as [|b rest] eqn:Hin; [discriminate|].
    change (Current (set_stdin p rest)) with (Current p).
    destruct (Current p) as [v|] eqn:Hv; [|discriminate].
    intros H. inversion H. subst. exact (S_input p b rest v Hs Hin Hv). }
  byte_case c InstOutput.
  { unfold Output. destruct (topSkip p) as [[|]|] eqn:Hs;
      [intros H; inversion H; subst; apply S_noop| |discriminate].
    destruct (Current p) as [v|] eqn:Hv; [|discriminate].
    intros H. inversion H. subst. exact (S_out p v Hs Hv). }
  byte_case c InstLoopStart.
  { unfold StartLoop. destruct (Current p) as [v|] eqn:Hv; [|discriminate].
    intros H. inversion H. subst. exact (S_open p v Hv). }
  byte_case c InstLoopEnd.
  { unfold EndLoop.
    destruct (len (closures p) <=? 1) eqn:Hlen; [discriminate|].
    apply Z.leb_gt in Hlen.
    destruct (closures p) as [|f rest] eqn:Hcl; [discriminate|].
    assert (Hrest : rest <> []).
    { intros ->. unfold len in Hlen. simpl in Hlen. lia. }
    destruct (Skip f) eqn:Hsk; simpl.
    - intros H. inversion H. subst. exact (S_pop p f rest Hcl Hrest (or_introl Hsk)).
    - destruct (Current p) as [v|] eqn:Hv; [|discriminate].
      destruct (0 <? v) eqn:Hpos; intros H; inversion H; subst.
      + apply Z.ltb_lt in Hpos. exact (S_jump p f rest v Hcl Hrest Hsk Hv Hpos).
      + apply Z.ltb_ge in Hpos.
        exact (S_pop p f rest Hcl Hrest
                 (or_intror (ex_intro _ v (conj Hv Hpos)))). }
  intros H. inversion H. subst. apply S_noop.
Qed.

Lemma iteration_Step (p q : Processor) :
  iteration p = Ok q -> exists t, Step (set_stderr p t) q.
Proof.
  unfold iteration.
  destruct (at_index (instructionBuffer p) (instructionPointer p)) as [c|];
    [|discriminate].
  destruct (trace c p) as [p1|] eqn:Htr; [|discriminate].
  destruct (trace_Ok _ _ _ Htr) as [t ->].
  destruct (dispatch c (set_stderr p t)) as [p2|] eqn:Hd; [|discriminate].
  intros Hq. inversion Hq. exists t. now apply (dispatch_Step c).
Qed.

(** A property that every step keeps holds in every state of a run. *)
Lemma Execute_preserves (P : Processor -> Prop) :
  (forall p t, P p -> P (set_stderr p t)) ->
  (forall p q, Inv p -> P p -> Step p q -> P q) ->
  forall fuel p, Inv p -> P p -> P (state_of (Execute fuel p)).
Proof.
  intros Hlog Hstep.
  induction fuel as [|fuel IH]; intros p HI HP; rewrite Execute_unfold;
    destruct (instructionPointer p <? len (instructionBuffer p)) eqn:Hlt;
    try exact HP.
  apply Z.ltb_lt in Hlt.
  pose proof (iteration_Inv p HI Hlt) as Ht.
  destruct (iteration p) as [q|e q] eqn:Hit; simpl in Ht.
  - destruct Ht as (HIq & _). apply IH; [exact HIq|].
    destruct (iteration_Step _ _ Hit) as [t Hs].
    apply (Hstep (set_stderr p t) q); auto using Inv_trace.
  - destruct Ht as ([t ->] & _). simpl. now apply Hlog.
Qed.

Lemma Execute_add (n m : nat) :
  forall p,
    Execute (n + m) p =
    match Execute n p with
    | Running q => Execute m q
    | o => o
    end.
Proof.
  induction n as [|n IH]; intros p.
  - simpl "+". rewrite (Execute_unfold 0 p).
    destruct (instructionPointer p <? len (instructionBuffer p)) eqn:Hlt;
      [reflexivity|].
    rewrite Execute_unfold. now rewrite Hlt.
  - change (S n + m)%nat with (S (n + m)).
    rewrite (Execute_unfold (S (n + m))), (Execute_unfold (S n)).
    destruct (instructionPointer p <? len (instructionBuffer p));
      [|reflexivity].
    destruct (iteration p); [apply IH|reflexivity].
Qed.

(** ** The closure stack *)

Lemma Step_root (p q : Processor) :
  root_at_bottom p -> Step p q -> root_at_bottom q.
Proof.
  intros (frames & Hcl & Hroot) Hs. unfold root_at_bottom.
  inversion Hs; subst; simpl; try (exists frames; now split).
  - (* move right *)
    destruct (ensureDataSize_fields
                (set_DataPointer p (DataPointer p + 1)))
      as (_ & Fcl & _).
    rewrite Fcl. exists frames. now split.
  - (* open *)
    exists (mkClosure (v =? 0) false (instructionPointer p) :: frames).
    rewrite Hcl. split; [reflexivity|]. now constructor.
  - (* pop *)
    destruct frames as [|f fs].
    + rewrite Hcl in H. inversion H. congruence.
    + rewrite Hcl in H. inversion H. subst.
      exists fs. split; [reflexivity|].
      now apply Forall_cons in Hroot as [_ Hfs].
Qed.

Lemma root_at_bottom_boot (debug : bool) (input osStdin : list byte) :
  root_at_bottom (boot debug input osStdin).
Proof. exists []. now split. Qed.

(** X1. In every state of every run the closure stack is the root
    closure of [NewProcessor] with, on top of it, one closure for each
    loop start of the program text that is open at the instruction
    pointer, innermost first, each recording the position of its loop
    start; the root is never popped, no other closure is marked as root,
    the instruction pointer stays within the program and the program is
    never modified. *)
Theorem stack_mirrors_program (fuel : nat) (debug : bool)
        (input osStdin : list byte) :
  exists frames,
    closures (state_of (Execute fuel (boot debug input osStdin)))
    = frames ++ [rootClosure] /\
    Forall (fun f => Root f = false) frames /\
    opens input
      (Z.to_nat (instructionPointer
                   (state_of (Execute fuel (boot debug input osStdin)))))
    = Some (map Start frames) /\
    0 <= instructionPointer
           (state_of (Execute fuel (boot debug input osStdin)))
      <= len input /\
    instructionBuffer (state_of (Execute fuel (boot debug input osStdin)))
    = input.
Proof.
  pose proof (Execute_Inv fuel _ (Inv_boot debug input osStdin))
    as (HI & Hbuf & _).
  assert (Hroot : root_at_bottom
                    (state_of (Execute fuel (boot debug input osStdin)))).
  { apply (Execute_preserves root_at_bottom).
    - intros p t H. exact H.
    - intros p q _. apply Step_root.
    - apply Inv_boot.
    - apply root_at_bottom_boot. }
  set (q := state_of (Execute fuel (boot debug input osStdin))) in *.
  change (instructionBuffer (boot debug input osStdin)) with input in Hbuf.
  destruct Hroot as (frames & Hcl & Hfr).
  destruct (inv_stack _ HI) as (frames' & r & Hcl' & Hop).
  rewrite Hcl in Hcl'. apply app_inj_tail in Hcl' as [-> _].
  exists frames'. split; [assumption|]. split; [assumption|].
  rewrite Hbuf in Hop. split; [assumption|].
  pose proof (inv_ip _ HI) as Hip. rewrite Hbuf in Hip.
  split; assumption.
Qed.

(** ** Skipping closures *)

Lemma no_skip_below (p : Processor) :
  skip_coherent p -> topSkip p = Some false ->
  forall pre c post, closures p = pre ++ c :: post -> Skip c = true -> False.
Proof.
  intros Hco Htop pre c post Hcl Hsk.
  destruct (Hco pre c post Hcl Hsk) as [_ Hpre].
  unfold topSkip in Htop. rewrite Hcl in Htop.
  destruct pre as [|x pre]; simpl in Htop.
  - congruence.
  - apply Forall_cons in Hpre as [Hx _]. congruence.
Qed.

Lemma Step_coherent (p q : Processor) :
  skip_coherent p -> Step p q -> skip_coherent q.
Proof.
  intros Hco Hs.
  inversion Hs; subst; intros pre c0 post Hcl Hsk; simpl in Hcl;
    try (exfalso; eapply (no_skip_below p); now eauto).
  - (* no effect *) exact (Hco pre c0 post Hcl Hsk).
  - (* move right *)
    exfalso.
    destruct (ensureDataSize_fields
                (set_DataPointer p (DataPointer p + 1)))
      as (_ & Fcl & _).
    rewrite Fcl in Hcl. eapply (no_skip_below p); now eauto.
  - (* open *)
    change (Current (set_instructionPointer
                       (set_closures p
                          (mkClosure (v =? 0) false (instructionPointer p)
                             :: closures p))
                       (instructionPointer p + 1)))
      with (Current p).
    destruct pre as [|x pre]; simpl in Hcl; inversion Hcl; subst.
    + simpl in Hsk. apply Z.eqb_eq in Hsk. subst. now split.
    + destruct (Hco pre c0 post H2 Hsk) as [Hzero Hpre].
      split; [assumption|]. constructor; [|assumption].
      simpl. rewrite Hzero in H. inversion H. reflexivity.
  - (* pop *)
    change (Current (set_instructionPointer (set_closures p rest)
                       (instructionPointer p + 1)))
      with (Current p).
    destruct (Hco (c :: pre) c0 post) as [Hzero Hpre]; try assumption.
    + rewrite H, Hcl. reflexivity.
    + split; [assumption|]. now apply Forall_cons in Hpre as [_ Hpre].
  - (* jump *) exact (Hco pre c0 post Hcl Hsk).
Qed.

Lemma skip_coherent_boot (debug : bool) (input osStdin : list byte) :
  skip_coherent (boot debug input osStdin).
Proof.
  intros pre c post Hcl Hsk. simpl in Hcl.
  destruct pre as [|x pre]; inversion Hcl; subst.
  - discriminate.
  - now destruct pre.
Qed.

(** X2. In every state of every run, whenever some closure on the stack
    skips, the current cell is zero and every closure above it skips
    too: the flag of the top closure alone tells whether the run is
    inside a skipped loop. *)
Theorem skip_flags_coherent (fuel : nat) (debug : bool)
        (input osStdin : list byte) (pre : list Closure) (c : Closure)
        (post : list Closure) :
  closures (state_of (Execute fuel (boot debug input osStdin)))
  = pre ++ c :: post ->
  Skip c = true ->
  Current (state_of (Execute fuel (boot debug input osStdin))) = Some 0 /\
  Forall (fun f => Skip f = true) pre.
Proof.
  apply (Execute_preserves skip_coherent).
  - intros p t H. exact H.
  - intros p q _. apply Step_coherent.
  - apply Inv_boot.
  - apply skip_coherent_boot.
Qed.

(** ** The tape along a run *)

Lemma Step_len (p q : Processor) :
  0 <= DataPointer p -> Step p q ->
  len (Data p) <= len (Data q) /\
  (len (Data q) = len (Data p) \/
   len (Data q) mod DefaultPageSize = 1 /\ DefaultPageSize < len (Data q)).
Proof.
  intros Hdp Hs.
  inversion Hs; subst; simpl; rewrite ?len_store; try (split; [lia|now left]).
  set (q0 := set_DataPointer p (DataPointer p + 1)).
  destruct (Z_lt_le_dec (DataPointer q0) (len (Data q0))) as [Hlt|Hle].
  - rewrite (ensureDataSize_keep q0 Hlt). simpl. split; [lia|now left].
  - assert (H0 : 0 <= DataPointer q0) by (simpl; lia).
    pose proof (ensureDataSize_grow q0 H0 Hle) as Hgrow.
    destruct (ensureDataSize_grow_length q0 H0 Hle) as [Hmod Hgt].
    destruct (ensureDataSize_fields q0) as (Fdp & _).
    rewrite Fdp in Hgt. simpl in Hle, Hgt.
    split; [lia|]. right. split; [assumption|].
    rewrite Hgrow. simpl.
    pose proof (Z.div_pos (DataPointer p + 1) DefaultPageSize
                  ltac:(lia) ltac:(unfold DefaultPageSize; lia)).
    unfold DefaultPageSize in *. lia.
Qed.

Lemma Step_shape (p q : Processor) :
  Inv p -> tape_shape p -> Step p q -> tape_shape q.
Proof.
  intros HI [Hmin Hsh] Hs.
  pose proof (inv_cursor _ HI) as [Hdp _].
  destruct (Step_len p q Hdp Hs) as [Hle [Heq | [Hmod Hgt]]];
    unfold tape_shape.
  - rewrite Heq. now split.
  - split; [lia|now right].
Qed.

(** X3. In every state of every run the tape has at least one page, its
    length is either the first page or one cell more than a whole number
    of pages, and every cell holds a byte value, whatever was read from
    the input.  And the tape never shrinks: with more turns of the
    dispatch loop it is at least as long. *)
Theorem tape_shape_always (fuel more : nat) (debug : bool)
        (input osStdin : list byte) :
  tape_shape (state_of (Execute fuel (boot debug input osStdin))) /\
  Forall (fun v => 0 <= v < 256)
    (Data (state_of (Execute fuel (boot debug input osStdin)))) /\
  len (Data (state_of (Execute fuel (boot debug input osStdin))))
  <= len (Data (state_of (Execute (fuel + more)
                            (boot debug input osStdin)))).
Proof.
  pose proof (Execute_Inv fuel _ (Inv_boot debug input osStdin))
    as (HI & _ & Hend).
  split; [|split].
  - apply (Execute_preserves tape_shape).
    + intros p t H. exact H.
    + intros p q. apply Step_shape.
    + apply Inv_boot.
    + split; [|left]; simpl; rewrite len_make;
        unfold DefaultPageSize; lia.
  - apply (inv_cells _ HI).
  - rewrite Execute_add.
    destruct (Execute fuel (boot debug input osStdin)) as [q|e q|q];
      simpl; try lia.
    simpl in HI.
    apply (Execute_preserves (fun x => len (Data q) <= len (Data x))).
    + intros p t H. exact H.
    + intros p x HIp Hle Hs.
      pose proof (inv_cursor _ HIp) as [Hdp _].
      destruct (Step_len p x Hdp Hs) as [Hlen _]. lia.
    + exact HI.
    + lia.
Qed.

Lemma at_index_app_l {A} (s t : list A) (i : Z) (x : A) :
  at_index s i = Some x -> at_index (s ++ t) i = Some x.
Proof.
  unfold at_index. destruct (decide (0 <= i)); [|discriminate].
  intros H. now apply lookup_app_l_Some.
Qed.

Lemma at_index_app_make (s : list Z) (n i x : Z) :
  at_index s i = None -> at_index (s ++ make n) i = Some x -> x = 0.
Proof.
  unfold at_index. destruct (decide (0 <= i)); [|discriminate].
  intros Hnone Hsome.
  apply lookup_ge_None in Hnone.
  rewrite lookup_app_r in Hsome by assumption.
  unfold make in Hsome. apply list_elem_of_lookup_2 in Hsome.
  apply list_elem_of_In in Hsome. now apply repeat_spec in Hsome.
Qed.

(** X4. One turn of the dispatch loop writes no cell of the tape other
    than the one under the cursor: every other cell keeps its value, and
    a cell the turn adds to the tape is zero. *)
Theorem turn_writes_current_cell_only (p q : Processor) (j : Z) :
  iteration p = Ok q ->
  j <> DataPointer p ->
  (forall x, at_index (Data p) j = Some x -> at_index (Data q) j = Some x) /\
  (forall x, at_index (Data p) j = None ->
             at_index (Data q) j = Some x -> x = 0).
Proof.
  intros Hit Hj. destruct (iteration_Step _ _ Hit) as [t Hs].
  inversion Hs; subst; simpl; try (split; [auto|congruence]).
  - (* increment, decrement *)
    change (Current (set_stderr p t)) with (Current p) in *.
    pose proof (at_index_Some _ _ _ H0) as [Hdp _].
    rewrite at_index_store_ne by (auto; lia). split; [auto|congruence].
  - (* input *)
    change (Current (set_stderr p t)) with (Current p) in *.
    pose proof (at_index_Some _ _ _ H1) as [Hdp _].
    rewrite at_index_store_ne by (auto; lia). split; [auto|congruence].
  - (* move right *)
    unfold ensureDataSize. simpl.
    destruct (len (Data p) <=? DataPointer p + 1); simpl;
      [|split; [auto|congruence]].
    split.
    + intros x. apply at_index_app_l.
    + intros x. apply at_index_app_make.
Qed.

(** ** How a run fails *)

Lemma dispatch_Abort (c : byte) (p q : Processor) (e : Error) :
  valid_cursor p -> closures p <> [] ->
  dispatch c p = Abort e q ->
  q = p /\
  (e = OutOfBoundsError /\ c = InstMoveLeft /\
   DataPointer p = 0 /\ topSkip p = Some false \/
   e = IOError /\ c = InstInput /\
   stdin p = [] /\ topSkip p = Some false \/
   e = UnbalancedLoopError /\ c = InstLoopEnd /\ len (closures p) <= 1).
Proof.
  intros Hcur Hne.
  destruct (at_index_in_range _ _ Hcur) as [v Hv].
  destruct (topSkip_defined p Hne) as [b Hb].
  unfold dispatch.
  byte_case c InstMoveRight.
  { unfold MoveRight. rewrite Hb. now destruct b. }
  byte_case c InstMoveLeft.
  { unfold MoveLeft. rewrite Hb. destruct b; [discriminate|].
    destruct (DataPointer p =? 0) eqn:E0; [|discriminate].
    apply Z.eqb_eq in E0. intros H. inversion H. subst. auto 10. }
  byte_case c InstDecrement.
  { unfold Decrement, Current. rewrite Hb, Hv. now destruct b. }
  byte_case c InstIncrement.
  { unfold Increment, Current. rewrite Hb, Hv. now destruct b. }
  byte_case c InstInput.
  { unfold Input, Current. rewrite Hb. destruct b; [discriminate|].
    destruct (stdin p) as [|x rest] eqn:Hin.
    - intros H. inversion H. subst. auto 10.
    - simpl. now rewrite Hv. }
  byte_case c InstOutput.
  { unfold Output, Current. rewrite Hb, Hv. now destruct b. }
  byte_case c InstLoopStart.
  { unfold StartLoop, Current. now rewrite Hv. }
  byte_case c InstLoopEnd.
  { unfold EndLoop, Current.
    destruct (len (closures p) <=? 1) eqn:Hlen.
    - apply Z.leb_le in Hlen. intros H. inversion H. subst. auto 10.
    - destruct (closures p) as [|f rest]; [easy|].
      rewrite Hv. destruct (Skip f); simpl; [discriminate|].
      now destruct (0 <? v). }
  discriminate.
Qed.

Lemma iteration_Abort (p q : Processor) (e : Error) :
  Inv p ->
  instructionPointer p < len (instructionBuffer p) ->
  iteration p = Abort e q ->
  exists c t,
    at_index (instructionBuffer p) (instructionPointer p) = Some c /\
    q = set_stderr p t /\
    (e = OutOfBoundsError /\ c = InstMoveLeft /\
     DataPointer p = 0 /\ topSkip p = Some false \/
     e = IOError /\ c = InstInput /\
     stdin p = [] /\ topSkip p = Some false \/
     e = UnbalancedLoopError /\ c = InstLoopEnd /\ len (closures p) <= 1).
Proof.
  intros HI Hlt. unfold iteration.
  destruct (at_index_in_range (instructionBuffer p) (instructionPointer p))
    as [c Hc]; [pose proof (inv_ip _ HI); lia|].
  rewrite Hc.
  destruct (at_index_in_range _ _ (inv_cursor _ HI)) as [v Hv].
  destruct (trace_defined c p v Hv) as [p1 Htr]. rewrite Htr.
  destruct (trace_Ok _ _ _ Htr) as [t ->].
  destruct (dispatch c (set_stderr p t)) as [p2|e' q'] eqn:Hd;
    [discriminate|].
  intros H. inversion H. subst.
  apply dispatch_Abort in Hd.
  - destruct Hd as [-> Hcases]. exists c, t. now repeat split.
  - apply (inv_cursor _ HI).
  - destruct (inv_stack _ HI) as (frames & r & Hcl & _). simpl.
    rewrite Hcl. now destruct frames.
Qed.

Lemma Execute_Failed (fuel : nat) :
  forall p e q,
    Inv p -> root_at_bottom p ->
    Execute fuel p = Failed e q ->
    exists c,
      at_index (instructionBuffer q) (instructionPointer q) = Some c /\
      (e = OutOfBoundsError /\ c = InstMoveLeft /\
       DataPointer q = 0 /\ topSkip q = Some false \/
       e = IOError /\ c = InstInput /\
       stdin q = [] /\ topSkip q = Some false \/
       e = UnbalancedLoopError /\ c = InstLoopEnd /\
       closures q = [rootClosure]).
Proof.
  induction fuel as [|fuel IH]; intros p e q HI Hroot;
    rewrite Execute_unfold;
    destruct (instructionPointer p <? len (instructionBuffer p)) eqn:Hlt;
    try discriminate.
  apply Z.ltb_lt in Hlt.
  destruct (iteration p) as [p'|e' q'] eqn:Hit.
  - pose proof (iteration_Inv p HI Hlt) as Ht. rewrite Hit in Ht.
    destruct Ht as (HI' & _).
    destruct (iteration_Step _ _ Hit) as [t Hs].
    apply IH; [assumption|].
    apply (Step_root (set_stderr p t)); assumption.
  - intros H. inversion H. subst.
    destruct (iteration_Abort _ _ _ HI Hlt Hit) as (c & t & Hc & -> & Hcases).
    exists c. split; [exact Hc|].
    destruct Hcases as [H1 | [H1 | (He & Hce & Hlen)]]; auto.
    right. right. split; [assumption|]. split; [assumption|].
    destruct Hroot as (frames & Hcl & _). simpl. rewrite Hcl in *.
    destruct frames; [reflexivity|].
    rewrite len_app, len_cons in Hlen. unfold len at 2 in Hlen.
    simpl in Hlen. pose proof (len_nonneg frames). lia.
Qed.

(** X5. A run of the dispatch loop fails in one of three ways only, each
    at the instruction that causes it, which the instruction pointer of
    the final state still designates: with [OutOfBoundsError] at a move
    left that is not skipped, the cursor at 0; with [IOError] at an input
    that is not skipped, the input stream exhausted; with
    [UnbalancedLoopError] at a loop end, the stack holding the root
    closure only. *)
Theorem failure_causes (fuel : nat) (debug : bool)
        (input osStdin : list byte) (e : Error) (q : Processor) :
  Execute fuel (boot debug input osStdin) = Failed e q ->
  exists c,
    at_index input (instructionPointer q) = Some c /\
    (e = OutOfBoundsError /\ c = InstMoveLeft /\
     DataPointer q = 0 /\ topSkip q = Some false \/
     e = IOError /\ c = InstInput /\
     stdin q = [] /\ topSkip q = Some false \/
     e = UnbalancedLoopError /\ c = InstLoopEnd /\
     closures q = [rootClosure]).
Proof.
  intros Hrun.
  pose proof (Execute_Inv fuel _ (Inv_boot debug input osStdin))
    as (_ & Hbuf & _).
  rewrite Hrun in Hbuf. simpl in Hbuf. rewrite <- Hbuf.
  apply (Execute_Failed fuel (boot debug input osStdin));
    auto using Inv_boot, root_at_bottom_boot.
Qed.

(** ** The debug flag *)

Ltac split_cases :=
  repeat (match goal with
          | |- context [if ?b then _ else _] => destruct b eqn:?
          | |- context [match ?x with _ => _ end] => destruct x eqn:?
          end; simpl); try reflexivity.

Lemma dispatch_erase (c : byte) (p : Processor) :
  dispatch c (erase p) = map_result erase (dispatch c p).
Proof.
  unfold dispatch, MoveRight, MoveLeft, Decrement, Increment, Input, Output,
    StartLoop, EndLoop, ensureDataSize, topSkip, Current; simpl.
  split_cases.
Qed.

Lemma iteration_erase (p : Processor) :
  valid_cursor p ->
  iteration (erase p) = map_result erase (iteration p).
Proof.
  intros Hcur. destruct (at_index_in_range _ _ Hcur) as [v Hv].
  unfold iteration.
  change (at_index (instructionBuffer (erase p))
            (instructionPointer (erase p)))
    with (at_index (instructionBuffer p) (instructionPointer p)).
  destruct (at_index (instructionBuffer p) (instructionPointer p)) as [c|];
    [|reflexivity].
  destruct (trace_defined c p v Hv) as [p1 Htr]. rewrite Htr.
  destruct (trace_Ok _ _ _ Htr) as [t ->].
  change (trace c (erase p)) with (Ok (erase p)). cbv iota.
  change (erase p) with (erase (set_stderr p t)) at 1.
  rewrite dispatch_erase.
  now destruct (dispatch c (set_stderr p t)).
Qed.

Lemma Execute_erase (fuel : nat) :
  forall p, Inv p ->
    Execute fuel (erase p) = map_outcome erase (Execute fuel p).
Proof.
  induction fuel as [|fuel IH]; intros p HI;
    rewrite (Execute_unfold _ (erase p)), (Execute_unfold _ p);
    change (instructionPointer (erase p)) with (instructionPointer p);
    change (instructionBuffer (erase p)) with (instructionBuffer p);
    destruct (instructionPointer p <? len (instructionBuffer p)) eqn:Hlt;
    try reflexivity.
  apply Z.ltb_lt in Hlt.
  rewrite (iteration_erase p (inv_cursor _ HI)).
  pose proof (iteration_Inv p HI Hlt) as Ht.
  destruct (iteration p) as [q|e q]; simpl; [|reflexivity].
  apply IH. apply Ht.
Qed.

(** X6. The debug flag changes nothing but the log: a run with the flag
    set and the run without it, on the same program and input, end in
    the same way (still running, done, or failed with the same error)
    and, the flag and the log stream apart, in the same state; so do the
    two runs of [main]. *)
Theorem debug_flag_only_logs (fuel : nat) (input osStdin : list byte) :
  map_outcome erase (Execute fuel (boot true input osStdin))
  = Execute fuel (boot false input osStdin) /\
  map_outcome erase (main fuel true input osStdin)
  = main fuel false input osStdin /\
  map_outcome erase (Execute fuel (boot false input osStdin))
  = Execute fuel (boot false input osStdin).
Proof.
  assert (Hrun : forall debug,
            map_outcome erase (Execute fuel (boot debug input osStdin))
            = Execute fuel (boot false input osStdin)).
  { intros debug. rewrite <- Execute_erase by apply Inv_boot.
    reflexivity. }
  split; [apply Hrun|]. split; [|apply Hrun].
  rewrite !main_unfold, <- (Hrun true).
  destruct (Execute fuel (boot true input osStdin)) as [q|e q|q];
    simpl; try reflexivity.
  unfold ExpectEnd. simpl.
  now destruct (1 <? len (closures q)).
Qed.

(** ** Input *)

(** X7. An input that is not skipped, with the cursor on the tape: when
    the input stream is exhausted the run ends with [IOError] in the
    state it was in; otherwise exactly one byte is taken from the
    stream and stored in the current cell, as a value below 256, and the
    cursor, the other cells, the output and the closure stack stay as
    they were. *)
Theorem Input_cases (p : Processor) :
  topSkip p = Some false ->
  valid_cursor p ->
  (stdin p = [] -> dispatch InstInput p = Abort IOError p) /\
  (forall b rest, stdin p = b :: rest ->
     exists q,
       dispatch InstInput p = Ok q /\
       Current q = Some (byte_val b) /\
       0 <= byte_val b < 256 /\
       stdin q = rest /\
       DataPointer q = DataPointer p /\
       (forall j, j <> DataPointer p ->
                  at_index (Data q) j = at_index (Data p) j) /\
       stdout q = stdout p /\
       closures q = closures p).
Proof.
  intros Hskip Hcur.
  change (dispatch InstInput p) with (Input p). unfold Input.
  rewrite Hskip. split.
  - now intros ->.
  - intros b rest ->.
    destruct (at_index_in_range _ _ Hcur) as [v Hv].
    change (Current (set_stdin p rest)) with (Current p).
    unfold Current at 1. rewrite Hv.
    eexists. split; [reflexivity|].
    split; [unfold Current; simpl; now apply at_index_store_eq|].
    split; [apply byte_val_range|].
    repeat split.
    intros j Hj. simpl. apply at_index_store_ne.
    + apply Hcur.
    + congruence.
Qed.

(** ** Bytes that are no instructions *)

Lemma dispatch_comment (c : byte) (p : Processor) :
  is_instruction c = false -> dispatch c p = Ok p.
Proof.
  unfold is_instruction. simpl. intros H.
  repeat (apply orb_false_iff in H; destruct H as [? H]).
  unfold dispatch.
  repeat match goal with
         | E : Byte.eqb c _ = false |- _ => rewrite E; clear E
         end.
  reflexivity.
Qed.

Lemma comment_run (prog : list byte) :
  forall (p : Processor) (v : Z),
    Forall (fun c => is_instruction c = false) prog ->
    Current p = Some v ->
    0 <= instructionPointer p ->
    drop (Z.to_nat (instructionPointer p)) (instructionBuffer p) = prog ->
    exists q,
      Execute (length prog) p = Done q /\
      frozen p q /\ closures q = closures p /\
      instructionPointer q = instructionPointer p + len prog.
Proof.
  induction prog as [|c prog IH]; intros p v Hprog Hv Hip Hdrop.
  - exists p. split; [apply Execute_Done; now apply drop_nil_len|].
    split; [apply frozen_refl|]. split; [reflexivity|].
    unfold len. simpl. lia.
  - apply Forall_cons in Hprog as [Hc Hprog].
    destruct (fetch_drop _ _ _ Hip Hdrop) as (Hfetch & Hlt & Hrest).
    destruct (iteration_dispatch _ _ _ Hfetch Hv) as [t Hit].
    rewrite (dispatch_comment c _ Hc) in Hit.
    destruct (IH (set_instructionPointer (set_stderr p t)
                    (instructionPointer p + 1)) v Hprog)
      as (q & Hrun & Hfr & Hcl & Hipq).
    + exact Hv.
    + simpl. lia.
    + exact Hrest.
    + exists q. split; [|split; [|split]].
      * simpl length. now rewrite (Execute_turn _ _ _ Hlt Hit).
      * eapply frozen_trans; [|exact Hfr]. now repeat split.
      * exact Hcl.
      * rewrite Hipq, len_cons. simpl. lia.
Qed.

(** With fewer turns than the program has bytes the run is still going,
    one byte further for each turn spent. *)
Lemma comment_run_short (prog : list byte) :
  forall (p : Processor) (v : Z) (fuel : nat),
    Forall (fun c => is_instruction c = false) prog ->
    Current p = Some v ->
    0 <= instructionPointer p ->
    drop (Z.to_nat (instructionPointer p)) (instructionBuffer p) = prog ->
    (fuel < length prog)%nat ->
    exists r,
      Execute fuel p = Running r /\
      frozen p r /\ closures r = closures p /\
      instructionPointer r = instructionPointer p + Z.of_nat fuel.
Proof.
  induction prog as [|c prog IH]; intros p v fuel Hprog Hv Hip Hdrop Hfuel;
    [simpl in Hfuel; lia|].
  apply Forall_cons in Hprog as [Hc Hprog].
  destruct (fetch_drop _ _ _ Hip Hdrop) as (Hfetch & Hlt & Hrest).
  destruct fuel as [|fuel].
  - exists p. split; [now apply Execute_0|].
    split; [apply frozen_refl|]. split; [reflexivity|lia].
  - destruct (iteration_dispatch _ _ _ Hfetch Hv) as [t Hit].
    rewrite (dispatch_comment c _ Hc) in Hit.
    destruct (IH (set_instructionPointer (set_stderr p t)
                    (instructionPointer p + 1)) v fuel Hprog)
      as (r & Hrun & Hfr & Hcl & Hipr).
    + exact Hv.
    + simpl. lia.
    + exact Hrest.
    + simpl in Hfuel. lia.
    + exists r. split; [|split; [|split]].
      * now rewrite (Execute_turn _ _ _ Hlt Hit).
      * eapply frozen_trans; [|exact Hfr]. now repeat split.
      * exact Hcl.
      * rewrite Hipr. simpl. lia.
Qed.

(** X8. A program without any of the eight instruction bytes runs to its
    end in exactly as many turns as it has bytes: with that many turns
    the run is done, the instruction pointer at the end, and with fewer
    it is still going, the instruction pointer at the number of turns
    spent.  It changes neither the tape, nor the cursor, nor the
    streams, nor the closure stack, at any point of the run. *)
Theorem comments_do_nothing (p : Processor) (prog : list byte) (v : Z) :
  Forall (fun c => is_instruction c = false) prog ->
  Current p = Some v ->
  (exists q,
     Execute (length prog) (Load p prog) = Done q /\
     frozen (Load p prog) q /\
     closures q = closures p /\
     instructionPointer q = len prog) /\
  (forall fuel, (fuel < length prog)%nat ->
     exists r,
       Execute fuel (Load p prog) = Running r /\
       frozen (Load p prog) r /\
       closures r = closures p /\
       instructionPointer r = Z.of_nat fuel).
Proof.
  intros Hprog Hv. split.
  - destruct (comment_run prog (Load p prog) v Hprog Hv)
      as (q & Hrun & Hfr & Hcl & Hipq).
    + simpl. lia.
    + reflexivity.
    + exists q. split; [assumption|]. split; [assumption|].
      split; [assumption|]. rewrite Hipq. simpl. lia.
  - intros fuel Hfuel.
    destruct (comment_run_short prog (Load p prog) v fuel Hprog Hv)
      as (r & Hrun & Hfr & Hcl & Hipr).
    + simpl. lia.
    + reflexivity.
    + exact Hfuel.
    + exists r. split; [assumption|]. split; [assumption|].
      split; [assumption|]. rewrite Hipr. simpl. lia.
Qed.

(** ** A loop that runs: [[-]] *)

(** The turns of [[-]] after its loop start, entered with [v] > 0 in the
    cell and the closure [f] of the loop on the stack. *)
Lemma clear_body (n : nat) :
  forall (p : Processor) (f : Closure) (cl : list Closure) (v : Z),
    instructionBuffer p = program "[-]" ->
    instructionPointer p = 1 ->
    closures p = f :: cl -> cl <> [] ->
    Skip f = false -> Start f = 0 ->
    Current p = Some v -> 0 < v < 256 -> Z.to_nat v = S n ->
    (exists q,
       Execute (2 * S n) p = Done q /\
       Current q = Some 0 /\
       closures q = cl /\
       DataPointer q = DataPointer p /\
       (forall j, j <> DataPointer p ->
                  at_index (Data q) j = at_index (Data p) j) /\
       stdin q = stdin p /\ stdout q = stdout p) /\
    (forall k, (k < 2 * S n)%nat -> exists r, Execute k p = Running r).
Proof.
  induction n as [|n IH];
    intros p f cl v Hbuf Hip Hcl Hne Hsk Hst Hv Hrange Hn.
  all: pose proof (at_index_Some _ _ _ Hv) as Hcur.
  all: assert (Hlen : (len (f :: cl) <=? 1) = false)
    by (apply Z.leb_gt; rewrite len_cons; destruct cl; [easy|];
        rewrite len_cons; pose proof (len_nonneg cl); lia).
  all: assert (Hf1 : at_index (instructionBuffer p) (instructionPointer p)
                     = Some InstDecrement)
    by (rewrite Hbuf, Hip; reflexivity).
  all: destruct (iteration_dispatch _ _ _ Hf1 Hv) as [t1 Hit1].
  all: change (dispatch InstDecrement (set_stderr p t1))
         with (Decrement (set_stderr p t1)) in Hit1.
  all: unfold Decrement, topSkip, Current in Hit1.
  all: cbn [closures Data DataPointer set_stderr instructionPointer] in Hit1.
  all: unfold Current in Hv; rewrite Hcl, Hsk, Hv in Hit1.
  all: rewrite (Z.mod_small (v - 1) 256) in Hit1 by lia.
  all: set (p1 := set_instructionPointer
                    (set_Data (set_stderr p t1)
                       (store (Data p) (DataPointer p) (v - 1)))
                    (instructionPointer p + 1)) in *.
  all: assert (Hv1 : Current p1 = Some (v - 1))
    by (unfold Current; simpl; now apply at_index_store_eq).
  all: assert (Hf2 : at_index (instructionBuffer p1) (instructionPointer p1)
                     = Some InstLoopEnd)
    by (simpl; rewrite Hbuf, Hip; reflexivity).
  all: destruct (iteration_dispatch _ _ _ Hf2 Hv1) as [t2 Hit2].
  all: change (dispatch InstLoopEnd (set_stderr p1 t2))
         with (EndLoop (set_stderr p1 t2)) in Hit2.
  all: unfold EndLoop in Hit2.
  all: change (closures (set_stderr p1 t2)) with (closures p) in Hit2.
  all: change (Current (set_stderr p1 t2)) with (Current p1) in Hit2.
  all: rewrite Hcl, Hlen, Hsk, Hv1 in Hit2; cbn [negb] in Hit2.
  all: assert (L1 : instructionPointer p < len (instructionBuffer p))
    by (rewrite Hbuf, Hip; reflexivity).
  all: assert (L2 : instructionPointer p1 < len (instructionBuffer p1))
    by (simpl; rewrite Hbuf, Hip; reflexivity).
  - (* last round: the cell reaches 0 and the closure is popped *)
    assert (v = 1) by lia. subst v.
    change (0 <? 1 - 1) with false in Hit2. cbv iota in Hit2.
    split.
    + eexists. split.
      { change (2 * 1)%nat with 2%nat.
        rewrite (Execute_turn _ _ _ L1 Hit1), (Execute_turn _ _ _ L2 Hit2).
        apply Execute_Done. simpl. rewrite Hbuf, Hip. vm_compute.
        discriminate. }
      split; [exact Hv1|]. repeat split.
      intros j Hj. simpl. apply at_index_store_ne; [lia|congruence].
    + intros [|[|k]] Hk; [| |lia].
      * exists p. now apply Execute_0.
      * exists p1. rewrite (Execute_turn _ _ _ L1 Hit1). now apply Execute_0.
  - (* another round: back to the instruction after the loop start *)
    assert (Hpos : (0 <? v - 1) = true) by (apply Z.ltb_lt; lia).
    rewrite Hpos in Hit2.
    set (p2 := set_instructionPointer
                 (set_instructionPointer (set_stderr p1 t2) (Start f))
                 (instructionPointer
                    (set_instructionPointer (set_stderr p1 t2) (Start f))
                  + 1)) in *.
    assert (Hip2 : instructionPointer p2 = 1) by (simpl; now rewrite Hst).
    assert (Hv2 : Current p2 = Some (v - 1)) by exact Hv1.
    assert (Hrange2 : 0 < v - 1 < 256) by lia.
    assert (Hn2 : Z.to_nat (v - 1) = S n) by lia.
    destruct (IH p2 f cl (v - 1) Hbuf Hip2 Hcl Hne Hsk Hst Hv2 Hrange2 Hn2)
      as ((q & Hrun & Hzero & Hclq & Hdp & Hothers & Hin & Hout) & Hshort).
    split.
    + exists q. split.
      { replace (2 * S (S n))%nat with (S (S (2 * S n))) by lia.
        now rewrite (Execute_turn _ _ _ L1 Hit1),
          (Execute_turn _ _ _ L2 Hit2). }
      split; [assumption|]. split; [assumption|].
      split; [exact Hdp|]. split; [|split; assumption].
      intros j Hj. rewrite (Hothers j Hj). simpl.
      apply at_index_store_ne; [lia|congruence].
    + intros [|[|k]] Hk.
      * exists p. now apply Execute_0.
      * exists p1. rewrite (Execute_turn _ _ _ L1 Hit1). now apply Execute_0.
      * rewrite (Execute_turn _ _ _ L1 Hit1), (Execute_turn _ _ _ L2 Hit2).
        apply Hshort. lia.
Qed.

(** X9. The program [[-]] clears the current cell, whatever byte it
    holds.  The run takes exactly 3 turns when the cell is already zero
    and exactly 1 + 2 v turns when it holds v > 0: with that many turns
    it is done, with 0 in the cell and with the cursor, the other cells,
    the streams and the closure stack as they were, and with fewer turns
    it is still going. *)
Theorem clear_loop (p : Processor) (v : Z) :
  closures p <> [] ->
  Current p = Some v ->
  0 <= v < 256 ->
  (exists q,
     Execute (if v =? 0 then 3 else 1 + 2 * Z.to_nat v)
       (Load p (program "[-]")) = Done q /\
     Current q = Some 0 /\
     closures q = closures p /\
     DataPointer q = DataPointer p /\
     (forall j, j <> DataPointer p ->
                at_index (Data q) j = at_index (Data p) j) /\
     stdin q = stdin p /\ stdout q = stdout p) /\
  (forall fuel,
     (fuel < (if (v =? 0)%Z then 3 else 1 + 2 * Z.to_nat v))%nat ->
     exists r, Execute fuel (Load p (program "[-]")) = Running r).
Proof.
  intros Hne Hv Hrange.
  set (p0 := Load p (program "[-]")).
  assert (Hf0 : at_index (instructionBuffer p0) (instructionPointer p0)
                = Some InstLoopStart) by reflexivity.
  assert (Hv0 : Current p0 = Some v) by exact Hv.
  destruct (iteration_dispatch _ _ _ Hf0 Hv0) as [t0 Hit0].
  change (dispatch InstLoopStart (set_stderr p0 t0))
    with (StartLoop (set_stderr p0 t0)) in Hit0.
  unfold StartLoop in Hit0.
  change (Current (set_stderr p0 t0)) with (Current p) in Hit0.
  rewrite Hv in Hit0.
  assert (L0 : instructionPointer p0 < len (instructionBuffer p0))
    by reflexivity.
  destruct (v =? 0) eqn:Ez.
  - (* the loop is skipped *)
    apply Z.eqb_eq in Ez. subst v.
    set (s := mkClosure true false (instructionPointer (set_stderr p0 t0)))
      in *.
    set (p1 := set_instructionPointer
                 (set_closures (set_stderr p0 t0)
                    (s :: closures (set_stderr p0 t0)))
                 (instructionPointer
                    (set_closures (set_stderr p0 t0)
                       (s :: closures (set_stderr p0 t0))) + 1)) in *.
    destruct (skipped_turn p1 InstDecrement s (closures p))
      as [t1 Hit1]; try easy.
    cbv beta iota delta [Byte.eqb InstDecrement InstLoopEnd InstLoopStart
                         Byte.to_N N.eqb Pos.eqb] in Hit1.
    set (p2 := set_instructionPointer
                 (set_closures (set_stderr p1 t1) (s :: closures p))
                 (instructionPointer p1 + 1)) in *.
    destruct (skipped_turn p2 InstLoopEnd s (closures p))
      as [t2 Hit2]; try easy.
    cbv beta iota delta [Byte.eqb InstLoopEnd Byte.to_N N.eqb Pos.eqb]
      in Hit2.
    assert (L1 : instructionPointer p1 < len (instructionBuffer p1))
      by reflexivity.
    assert (L2 : instructionPointer p2 < len (instructionBuffer p2))
      by reflexivity.
    split.
    + eexists. split.
      { rewrite (Execute_turn _ _ _ L0 Hit0).
        rewrite (Execute_turn _ p1 _ L1 Hit1).
        rewrite (Execute_turn _ p2 _ L2 Hit2).
        apply Execute_Done. simpl. vm_compute. discriminate. }
      now repeat split.
    + intros [|[|[|k]]] Hk; [| | |lia].
      * exists p0. now apply Execute_0.
      * exists p1. rewrite (Execute_turn _ _ _ L0 Hit0). now apply Execute_0.
      * exists p2. rewrite (Execute_turn _ _ _ L0 Hit0).
        rewrite (Execute_turn _ p1 _ L1 Hit1). now apply Execute_0.
  - (* the body runs v times *)
    apply Z.eqb_neq in Ez.
    set (f := mkClosure false false (instructionPointer (set_stderr p0 t0)))
      in *.
    set (p1 := set_instructionPointer
                 (set_closures (set_stderr p0 t0)
                    (f :: closures (set_stderr p0 t0)))
                 (instructionPointer
                    (set_closures (set_stderr p0 t0)
                       (f :: closures (set_stderr p0 t0))) + 1)) in *.
    destruct (clear_body (Z.to_nat v - 1) p1 f (closures p) v)
      as ((q & Hrun & Hzero & Hcl & Hdp & Hothers & Hin & Hout) & Hshort);
      try easy; try lia.
    split.
    + exists q. split; [|now repeat split].
      rewrite (Execute_turn _ _ _ L0 Hit0).
      now replace (2 * Z.to_nat v)%nat
        with (2 * S (Z.to_nat v - 1))%nat by lia.
    + intros [|k] Hk.
      * exists p0. now apply Execute_0.
      * rewrite (Execute_turn _ _ _ L0 Hit0). apply Hshort. lia.
Qed.

(** ** The two revisions of [main] *)

(** X10. [main] of src/main.go, which stops after [Execute], and the
    later [main], which goes on to [ExpectEnd], compared on every
    program and input.  When the dispatch loop runs to the end of the
    program, the earlier [main] ends normally, its stack holding the
    root and one closure for each loop start the text leaves open; the
    later one ends normally in the same state when no loop start is left
    open, and fails with [UnterminatedLoopError] when one is.  When the
    run fails, or is still going, the two agree. *)
Theorem main_revisions (fuel : nat) (input osStdin : list byte) :
  (forall q,
     main_plain fuel input osStdin = Done q ->
     exists unmatched,
       opens input (length input) = Some unmatched /\
       len (closures q) = 1 + len unmatched /\
       (unmatched = [] -> main fuel false input osStdin = Done q) /\
       (unmatched <> [] ->
        main fuel false input osStdin = Failed UnterminatedLoopError q)) /\
  (forall e q,
     main_plain fuel input osStdin = Failed e q ->
     main fuel false input osStdin = Failed e q) /\
  (forall q,
     main_plain fuel input osStdin = Running q ->
     main fuel false input osStdin = Running q).
Proof.
  rewrite main_unfold.
  change (main_plain fuel input osStdin)
    with (Execute fuel (boot false input osStdin)).
  split; [|split].
  - intros q Hrun. rewrite Hrun.
    destruct (Done_stack _ _ _ _ _ Hrun) as (frames & r & Hcl & Hop).
    exists (map Start frames). split; [assumption|].
    assert (Hlen : len (closures q) = 1 + len (map Start frames)).
    { rewrite Hcl, len_app. unfold len. rewrite length_map. simpl. lia. }
    split; [assumption|]. unfold ExpectEnd. rewrite Hlen. split.
    + intros ->. reflexivity.
    + intros Hne.
      destruct (map Start frames) as [|x l]; [congruence|].
      rewrite len_cons. pose proof (len_nonneg l).
      destruct (1 <? 1 + (1 + len l)) eqn:E; [reflexivity|].
      apply Z.ltb_ge in E. lia.
  - intros e q Hrun. now rewrite Hrun.
  - intros q Hrun. now rewrite Hrun.
Qed.

(** ** Instructions that undo each other *)

Lemma store_same {A} (s : list A) (i : Z) (a v : A) :
  at_index s i = Some v -> store (store s i a) i v = s.
Proof.
  unfold at_index, store. destruct (decide (0 <= i)); [|discriminate].
  intros H. rewrite list_insert_insert_eq. now apply list_insert_id.
Qed.

(** X11. Outside skipped loops, on a cell that holds a byte, an
    increment followed by a decrement, and a decrement followed by an
    increment, give back the state they started from; a move right
    followed by a move left never fails and gives back the cursor and
    every cell the tape had. *)
Theorem inverse_instructions (p : Processor) (v : Z) :
  topSkip p = Some false ->
  Current p = Some v ->
  0 <= v < 256 ->
  (exists q, dispatch InstIncrement p = Ok q /\
             dispatch InstDecrement q = Ok p) /\
  (exists q, dispatch InstDecrement p = Ok q /\
             dispatch InstIncrement q = Ok p) /\
  (exists q r, dispatch InstMoveRight p = Ok q /\
               dispatch InstMoveLeft q = Ok r /\
               DataPointer r = DataPointer p /\
               forall j x, at_index (Data p) j = Some x ->
                           at_index (Data r) j = Some x).
Proof.
  intros Hskip Hv Hrange.
  pose proof (at_index_Some _ _ _ Hv) as Hcur.
  assert (Hback : forall a, 0 <= a < 256 ->
            set_Data (set_Data p (store (Data p) (DataPointer p) a))
              (store (store (Data p) (DataPointer p) a) (DataPointer p) v)
            = p).
  { intros a _. unfold Current in Hv. rewrite (store_same _ _ _ _ Hv).
    now destruct p. }
  split; [|split].
  - eexists. split.
    + change (dispatch InstIncrement p) with (Increment p).
      unfold Increment. rewrite Hskip, Hv. reflexivity.
    + change (dispatch InstDecrement ?q) with (Decrement q).
      unfold Decrement, topSkip, Current. simpl.
      unfold topSkip in Hskip. rewrite Hskip.
      rewrite at_index_store_eq by assumption.
      replace (((v + 1) mod 256 - 1) mod 256) with v.
      * f_equal. apply Hback. apply Z.mod_pos_bound. lia.
      * rewrite Zminus_mod_idemp_l.
        replace (v + 1 - 1) with v by lia. now rewrite Z.mod_small.
  - eexists. split.
    + change (dispatch InstDecrement p) with (Decrement p).
      unfold Decrement. rewrite Hskip, Hv. reflexivity.
    + change (dispatch InstIncrement ?q) with (Increment q).
      unfold Increment, topSkip, Current. simpl.
      unfold topSkip in Hskip. rewrite Hskip.
      rewrite at_index_store_eq by assumption.
      replace (((v - 1) mod 256 + 1) mod 256) with v.
      * f_equal. apply Hback. apply Z.mod_pos_bound. lia.
      * rewrite Zplus_mod_idemp_l.
        replace (v - 1 + 1) with v by lia. now rewrite Z.mod_small.
  - set (q0 := set_DataPointer p (DataPointer p + 1)).
    destruct (ensureDataSize_fields q0) as (Fdp & Fcl & _).
    exists (ensureDataSize q0),
      (set_DataPointer (ensureDataSize q0) (DataPointer p)).
    split; [|split; [|split]].
    + change (dispatch InstMoveRight p) with (MoveRight p).
      unfold MoveRight. now rewrite Hskip.
    + change (dispatch InstMoveLeft ?q) with (MoveLeft q).
      unfold MoveLeft, topSkip. rewrite Fcl, Fdp. simpl.
      unfold topSkip in Hskip. rewrite Hskip.
      destruct (DataPointer p + 1 =? 0) eqn:E; [apply Z.eqb_eq in E; lia|].
      do 2 f_equal. lia.
    + reflexivity.
    + intros j x Hx. simpl. unfold ensureDataSize.
      destruct (len (Data q0) <=? DataPointer q0); [|exact Hx].
      simpl. now apply at_index_app_l.
Qed.

(** ** Comments in a program *)

Lemma rank_0 (prog : list byte) : rank prog 0 = 0.
Proof. reflexivity. Qed.

Lemma rank_nonneg (prog : list byte) (i : Z) : 0 <= rank prog i.
Proof. apply len_nonneg. Qed.

Lemma rank_end (prog : list byte) : rank prog (len prog) = len (strip prog).
Proof.
  unfold rank, len. rewrite Nat2Z.id. now rewrite take_ge by lia.
Qed.

Lemma rank_succ (prog : list byte) (i : Z) (c : byte) :
  at_index prog i = Some c ->
  rank prog (i + 1)
  = rank prog i + (if is_instruction c then 1 else 0).
Proof.
  unfold at_index. destruct (decide (0 <= i)) as [Hi|]; [|discriminate].
  intros Hc. unfold rank.
  replace (Z.to_nat (i + 1)) with (S (Z.to_nat i)) by lia.
  rewrite (take_S_r _ _ _ Hc). unfold strip.
  rewrite List.filter_app, len_app. simpl.
  destruct (is_instruction c); unfold len; simpl; lia.
Qed.

Lemma strip_fetch (prog : list byte) (i : Z) (c : byte) :
  at_index prog i = Some c ->
  is_instruction c = true ->
  at_index (strip prog) (rank prog i) = Some c.
Proof.
  unfold at_index. destruct (decide (0 <= i)) as [Hi|]; [|discriminate].
  intros Hc Hins.
  destruct (decide (0 <= rank prog i)) as [_|Hn];
    [|pose proof (rank_nonneg prog i); lia].
  assert (Hs : strip prog
               = strip (take (Z.to_nat i) prog)
                   ++ c :: strip (drop (S (Z.to_nat i)) prog)).
  { transitivity (strip (take (Z.to_nat i) prog
                           ++ c :: drop (S (Z.to_nat i)) prog)).
    - now rewrite take_drop_middle.
    - unfold strip. rewrite List.filter_app. simpl. now rewrite Hins. }
  rewrite Hs. unfold rank, len. rewrite Nat2Z.id.
  now apply list_lookup_middle.
Qed.

Lemma topSkip_relocate (g : Z -> Z) (buf : list byte) (p : Processor) :
  topSkip (relocate g buf p) = topSkip p.
Proof. unfold topSkip. simpl. now destruct (closures p). Qed.

Lemma dispatch_relocate (g : Z -> Z) (buf : list byte) (c : byte)
      (p : Processor) :
  dispatch c (relocate g buf p) = map_result (relocate g buf) (dispatch c p).
Proof.
  unfold dispatch.
  repeat match goal with
         | |- context [if Byte.eqb c ?i then _ else _] =>
           destruct (Byte.eqb c i)
         end; try reflexivity.
  - unfold MoveRight. rewrite topSkip_relocate.
    destruct (topSkip p) as [[|]|]; try reflexivity.
    unfold ensureDataSize. simpl.
    now destruct (len (Data p) <=? DataPointer p + 1).
  - unfold MoveLeft. rewrite topSkip_relocate.
    destruct (topSkip p) as [[|]|]; try reflexivity. simpl.
    now destruct (DataPointer p =? 0).
  - unfold Decrement. rewrite topSkip_relocate.
    change (Current (relocate g buf p)) with (Current p).
    destruct (topSkip p) as [[|]|]; try reflexivity.
    now destruct (Current p).
  - unfold Increment. rewrite topSkip_relocate.
    change (Current (relocate g buf p)) with (Current p).
    destruct (topSkip p) as [[|]|]; try reflexivity.
    now destruct (Current p).
  - unfold Input. rewrite topSkip_relocate.
    destruct (topSkip p) as [[|]|]; try reflexivity. simpl.
    destruct (stdin p) as [|b rest]; [reflexivity|].
    change (Current (set_stdin (relocate g buf p) rest)) with (Current p).
    change (Current (set_stdin p rest)) with (Current p).
    now destruct (Current p).
  - unfold Output. rewrite topSkip_relocate.
    change (Current (relocate g buf p)) with (Current p).
    destruct (topSkip p) as [[|]|]; try reflexivity.
    now destruct (Current p).
  - unfold StartLoop.
    change (Current (relocate g buf p)) with (Current p).
    now destruct (Current p).
  - unfold EndLoop.
    change (Current (relocate g buf p)) with (Current p).
    assert (Hlen : len (closures (relocate g buf p)) = len (closures p))
      by (unfold len; simpl; now rewrite length_map).
    rewrite Hlen. destruct (len (closures p) <=? 1); [reflexivity|].
    simpl. destruct (closures p) as [|f rest]; [reflexivity|]. simpl.
    destruct (Skip f); simpl; [reflexivity|].
    destruct (Current p) as [v|]; [|reflexivity].
    now destruct (0 <? v).
Qed.

Lemma Step_ip (p q : Processor) :
  Step p q ->
  instructionPointer q = instructionPointer p + 1 \/
  exists f rest,
    closures p = f :: rest /\ rest <> [] /\
    instructionPointer q = Start f + 1.
Proof.
  intros Hs. inversion Hs; subst; simpl; eauto 6.
Qed.

(** The position on top of the stack of open loops holds a loop start. *)
Lemma opens_top_start (prog : list byte) (i : nat) (s : Z) (rest : list Z) :
  opens prog i = Some (s :: rest) ->
  at_index prog s = Some InstLoopStart.
Proof.
  intros Hop. destruct (opens_top _ _ _ _ Hop) as [Hs Hpush].
  rewrite opens_S in Hpush.
  destruct (opens prog (Z.to_nat s)) as [stk|] eqn:Hj; [|discriminate].
  assert (Habs : forall pre post, stk = pre ++ s :: post -> False).
  { intros pre post E.
    destruct (opens_suffix prog (Z.to_nat s) stk pre s post Hj E). lia. }
  unfold at_index. destruct (decide (0 <= s)); [|lia].
  destruct (prog !! Z.to_nat s) as [c|].
  - destruct (Byte.eqb c InstLoopStart) eqn:E.
    + apply Byte.byte_dec_bl in E. now subst.
    + exfalso. destruct (Byte.eqb c InstLoopEnd).
      * destruct stk as [|x r]; [discriminate|]. inversion Hpush. subst.
        now apply (Habs [x] rest).
      * inversion Hpush. subst. now apply (Habs [] rest).
  - exfalso. inversion Hpush. subst. now apply (Habs [] rest).
Qed.

(** One turn at an instruction and the same turn on the program without
    comments. *)
Lemma iteration_stripped (p : Processor) (c : byte) :
  Inv p ->
  at_index (instructionBuffer p) (instructionPointer p) = Some c ->
  is_instruction c = true ->
  iteration (stripped p) = map_result stripped (iteration p).
Proof.
  intros HI Hc Hins.
  pose proof (at_index_Some _ _ _ Hc) as [_ Hlt].
  pose proof (iteration_Inv p HI Hlt) as Hturn.
  destruct (at_index_in_range _ _ (inv_cursor _ HI)) as [v Hv].
  destruct (iteration_dispatch _ _ _ Hc Hv) as [t Hit].
  unfold iteration at 1.
  change (at_index (instructionBuffer (stripped p))
            (instructionPointer (stripped p)))
    with (at_index (strip (instructionBuffer p))
            (rank (instructionBuffer p) (instructionPointer p))).
  rewrite (strip_fetch _ _ _ Hc Hins).
  change (trace c (stripped p)) with (Ok (stripped p)). cbv iota.
  change (stripped p)
    with (relocate (rank (instructionBuffer p))
            (strip (instructionBuffer p)) (set_stderr p t)).
  rewrite dispatch_relocate. rewrite Hit in *. clear Hit.
  destruct (dispatch c (set_stderr p t)) as [p2|e q] eqn:Hd; simpl.
  - destruct Hturn as (HI2 & Hbuf & _). simpl in Hbuf.
    unfold stripped. simpl. rewrite Hbuf.
    unfold relocate. simpl. f_equal. f_equal.
    (* the translated position moves on by one *)
    destruct (Step_ip _ _ (dispatch_Step _ _ _ Hd)) as [E | (f & rest & Hcl & Hne & E)];
      simpl in E.
    + replace (instructionPointer p2) with (instructionPointer p) by lia.
      rewrite (rank_succ _ _ _ Hc), Hins. reflexivity.
    + replace (instructionPointer p2) with (Start f) by lia.
      simpl in Hcl.
      destruct (inv_stack _ HI) as (frames & r & Hcl' & Hop).
      rewrite Hcl in Hcl'. destruct frames as [|f' fs].
      * inversion Hcl'. congruence.
      * inversion Hcl'. subst f'. simpl in Hop.
        pose proof (opens_top_start _ _ _ _ Hop) as Hstart.
        rewrite (rank_succ _ _ _ Hstart). reflexivity.
  - destruct Hturn as ([t' ->] & _). reflexivity.
Qed.

Lemma comment_turn (p : Processor) (c : byte) :
  Inv p ->
  at_index (instructionBuffer p) (instructionPointer p) = Some c ->
  is_instruction c = false ->
  exists q, iteration p = Ok q /\ stripped q = stripped p.
Proof.
  intros HI Hc Hins.
  destruct (at_index_in_range _ _ (inv_cursor _ HI)) as [v Hv].
  destruct (iteration_dispatch _ _ _ Hc Hv) as [t Hit].
  rewrite (dispatch_comment c _ Hins) in Hit.
  eexists. split; [exact Hit|].
  unfold stripped, relocate. simpl.
  rewrite (rank_succ _ _ _ Hc), Hins. now rewrite Z.add_0_r.
Qed.

Lemma strip_ok_more (fuel : nat) (p p' : Processor) (o : Outcome) :
  stripped p' = stripped p ->
  strip_ok fuel p' o -> strip_ok (S fuel) p o.
Proof.
  intros E. destruct o as [q|e q|q]; simpl; auto;
    intros (fuel' & Hle & Hrun); exists fuel'; rewrite <- E; split; auto; lia.
Qed.

Lemma Execute_stripped (fuel : nat) :
  forall p, Inv p -> strip_ok fuel p (Execute fuel p).
Proof.
  induction fuel as [|fuel IH]; intros p HI; rewrite Execute_unfold;
    destruct (instructionPointer p <? len (instructionBuffer p)) eqn:Hlt.
  - exact I.
  - simpl. exists 0%nat. split; [lia|]. apply Execute_Done.
    apply Z.ltb_ge in Hlt. pose proof (inv_ip _ HI) as Hip.
    assert (E : instructionPointer p = len (instructionBuffer p)) by lia.
    simpl. rewrite E, rank_end. lia.
  - apply Z.ltb_lt in Hlt.
    destruct (at_index_in_range (instructionBuffer p) (instructionPointer p))
      as [c Hc]; [pose proof (inv_ip _ HI); lia|].
    pose proof (iteration_Inv p HI Hlt) as Hturn.
    destruct (is_instruction c) eqn:Hins.
    + pose proof (iteration_stripped p c HI Hc Hins) as Hs.
      pose proof (at_index_Some _ _ _ (strip_fetch _ _ _ Hc Hins)) as [_ Hlt'].
      assert (L : instructionPointer (stripped p)
                  < len (instructionBuffer (stripped p))) by exact Hlt'.
      destruct (iteration p) as [q|e q]; simpl in Hs, Hturn.
      * destruct Hturn as (HIq & _). specialize (IH q HIq).
        destruct (Execute fuel q) as [r|e r|r]; simpl in IH |- *; auto;
          destruct IH as (fuel' & Hle & Hrun); exists (S fuel');
          (split; [lia|]);
          now rewrite (Execute_turn fuel' (stripped p) (stripped q) L Hs).
      * simpl. exists 1%nat. split; [lia|].
        rewrite Execute_unfold. apply Z.ltb_lt in L. now rewrite L, Hs.
    + destruct (comment_turn p c HI Hc Hins) as (q & Hit & E).
      rewrite Hit in *. simpl in Hturn. destruct Hturn as (HIq & _).
      apply (strip_ok_more fuel p q); [exact E|]. now apply IH.
  - simpl. exists 0%nat. split; [lia|]. apply Execute_Done.
    apply Z.ltb_ge in Hlt. pose proof (inv_ip _ HI) as Hip.
    assert (E : instructionPointer p = len (instructionBuffer p)) by lia.
    simpl. rewrite E, rank_end. lia.
Qed.

(** X12. Bytes that are no instructions do not change what a program
    computes: when a run ends, normally or with an error, the run on
    the program without those bytes ends in the same way, in no more
    turns, with the same tape, cursor, input left, output written and
    closure flags; only the recorded positions differ, translated to the
    shorter text. *)
Theorem comments_are_ignored (fuel : nat) (debug : bool)
        (input osStdin : list byte) :
  (forall q,
     Execute fuel (boot debug input osStdin) = Done q ->
     exists fuel', (fuel' <= fuel)%nat /\
       Execute fuel' (boot false (strip input) osStdin) = Done (stripped q) /\
       Data (stripped q) = Data q /\
       DataPointer (stripped q) = DataPointer q /\
       stdin (stripped q) = stdin q /\
       stdout (stripped q) = stdout q /\
       map Skip (closures (stripped q)) = map Skip (closures q)) /\
  (forall e q,
     Execute fuel (boot debug input osStdin) = Failed e q ->
     exists fuel', (fuel' <= fuel)%nat /\
       Execute fuel' (boot false (strip input) osStdin)
       = Failed e (stripped q) /\
       Data (stripped q) = Data q /\
       DataPointer (stripped q) = DataPointer q /\
       stdin (stripped q) = stdin q /\
       stdout (stripped q) = stdout q /\
       map Skip (closures (stripped q)) = map Skip (closures q)).
Proof.
  pose proof (Execute_stripped fuel _ (Inv_boot debug input osStdin)) as H.
  assert (Hflags : forall q,
            map Skip (closures (stripped q)) = map Skip (closures q)).
  { intros q. simpl. rewrite map_map. reflexivity. }
  change (stripped (boot debug input osStdin))
    with (boot false (strip input) osStdin) in H.
  split.
  - intros q Hrun. rewrite Hrun in H. destruct H as (fuel' & Hle & Hs).
    exists fuel'. repeat split; auto.
  - intros e q Hrun. rewrite Hrun in H. destruct H as (fuel' & Hle & Hs).
    exists fuel'. repeat split; auto.
Qed.

(** ** The further theorems at work on concrete runs *)

(** After [[[] on the fresh tape both loops are skipped. *)
Lemma skip_flags_coherent_witness :
  Current (state_of (Execute 2 (boot false (program "[[") []))) = Some 0 /\
  Forall (fun f => Skip f = true) [mkClosure true false 1].
Proof.
  apply (skip_flags_coherent 2 false (program "[[") []
           [mkClosure true false 1] (mkClosure true false 0) [rootClosure]).
  - vm_compute. reflexivity.
  - reflexivity.
Defined.

Lemma turn_writes_current_cell_only_witness :
  at_index (Data (state_of (Execute 1 (boot false (program "+") [])))) 5
  = Some 0.
Proof.
  pose (p := boot false (program "+") []).
  assert (Hit : iteration p = Ok (state_of (Execute 1 p)))
    by (vm_compute; reflexivity).
  destruct (turn_writes_current_cell_only p (state_of (Execute 1 p)) 5 Hit)
    as [Hkeep _].
  - vm_compute. discriminate.
  - apply Hkeep. vm_compute. reflexivity.
Defined.

Lemma failure_causes_witness :
  exists c,
    at_index (program "><<")
      (instructionPointer
         (state_of (Execute 3 (boot false (program "><<") []))))
    = Some c /\ c = InstMoveLeft.
Proof.
  destruct (failure_causes 3 false (program "><<") [] OutOfBoundsError
              (state_of (Execute 3 (boot false (program "><<") []))))
    as (c & Hc & Hcases).
  - vm_compute. reflexivity.
  - exists c. split; [exact Hc|].
    destruct Hcases as [(_ & E & _) | [(E & _) | (E & _)]];
      [exact E|discriminate|discriminate].
Defined.

Lemma Input_cases_witness :
  exists q,
    dispatch InstInput (NewProcessor ["A"%byte]) = Ok q /\
    Current q = Some 65.
Proof.
  destruct (Input_cases (NewProcessor ["A"%byte])) as [_ H].
  - reflexivity.
  - unfold valid_cursor. vm_compute. split; [discriminate|reflexivity].
  - destruct (H "A"%byte [] eq_refl) as (q & Hq & Hv & _).
    exists q. split; [exact Hq|exact Hv].
Defined.

Lemma comments_do_nothing_witness :
  exists q,
    Execute 5 (Load (NewProcessor []) (program "hello")) = Done q /\
    instructionPointer q = 5.
Proof.
  destruct (comments_do_nothing (NewProcessor []) (program "hello") 0)
    as ((q & Hrun & _ & _ & Hip) & _).
  - repeat constructor.
  - reflexivity.
  - exists q. split; [exact Hrun|exact Hip].
Defined.

Lemma clear_loop_witness :
  exists q,
    Execute 7 (Load (state_of (Execute 3 (boot false (program "+++") [])))
                 (program "[-]")) = Done q /\
    Current q = Some 0.
Proof.
  destruct (clear_loop (state_of (Execute 3 (boot false (program "+++") [])))
              3) as ((q & Hrun & Hzero & _) & _).
  - discriminate.
  - vm_compute. reflexivity.
  - lia.
  - exists q. split; [exact Hrun|exact Hzero].
Defined.

Lemma inverse_instructions_witness :
  exists q,
    dispatch InstDecrement (NewProcessor []) = Ok q /\
    dispatch InstIncrement q = Ok (NewProcessor []).
Proof.
  destruct (inverse_instructions (NewProcessor []) 0) as (_ & H & _).
  - reflexivity.
  - reflexivity.
  - lia.
  - exact H.
Defined.

Lemma comments_are_ignored_witness :
  exists fuel',
    (fuel' <= 9)%nat /\
    Execute fuel' (boot false (strip (program "+ [ - ] .")) [])
    = Done (stripped
              (state_of (Execute 9 (boot false (program "+ [ - ] .") [])))).
Proof.
  destruct (comments_are_ignored 9 false (program "+ [ - ] .") [])
    as [H _].
  destruct (H (state_of (Execute 9 (boot false (program "+ [ - ] .") []))))
    as (fuel' & Hle & Hrun & _).
  - vm_compute. reflexivity.
  - exists fuel'. split; [exact Hle|exact Hrun].
Defined.

Lemma main_revisions_witness :
  main 3 false (program "[+[") []
  = Failed UnterminatedLoopError
      (state_of (Execute 3 (boot false (program "[+[") []))).
Proof.
  destruct (main_revisions 3 (program "[+[") []) as [H _].
  destruct (H (state_of (Execute 3 (boot false (program "[+[") []))))
    as (unmatched & Hop & _ & _ & Hfail).
  - vm_compute. reflexivity.
  - apply Hfail. intros ->. vm_compute in Hop. discriminate.
Defined.
